(** * Tibber Pulse decoder: a shallow embedding of [decoder.py]

    The development follows the Python module function by function.
    Python integers are [Z]; [bytes] values are lists of [Byte.byte];
    a [str] is the list of its Unicode code points; the result [dict] is a
    [gmap] from key names to Python values.  Operations that can raise in
    Python ([data[i]], [bytearray.append], [struct.unpack], [datetime(...)],
    [list.append] on a foreign object) return in the [run] monad, so that
    "does not raise" is a statement to be proved and not an assumption.
    The two [while] loops run on fuel; the theorems show that the fuel the
    functions give themselves is always enough. *)

From Stdlib Require Import ZArith Floats Uint63 Lia.
From Stdlib.Strings Require Import Byte Ascii String.
From stdpp Require Import gmap strings list fin_maps.

#[local] Open Scope Z_scope.

(** ** Outcomes of running Python code *)

Inductive pyexn : Type :=
| IndexError
| ValueError
| StructError
| AttributeError.

Inductive run (A : Type) : Type :=
| Done (a : A)
| Raise (e : pyexn)
| OutOfFuel.

Arguments Done {A} a.
Arguments Raise {A} e.
Arguments OutOfFuel {A}.

Definition bind {A B : Type} (m : run A) (k : A -> run B) : run B :=
  match m with
  | Done a => k a
  | Raise e => Raise e
  | OutOfFuel => OutOfFuel
  end.

Notation "'let*' x ':=' m 'in' k" := (bind m (fun x => k))
  (at level 10, x name, m at level 100, k at level 200).

(** The outcomes other than a loop that ran out of fuel. *)
Definition returns_or_raises {A : Type} (m : run A) : Prop :=
  match m with
  | OutOfFuel => False
  | _ => True
  end.

(** [try: m except Exception: h] *)
Definition try_except {A : Type} (m : run A) (h : pyexn -> run A) : run A :=
  match m with
  | Raise e => h e
  | other => other
  end.

(** ** Loops *)

Inductive flow (St : Type) : Type :=
| Continue (s : St)
| Break (s : St).

Arguments Continue {St} s.
Arguments Break {St} s.

(** [while cond: body], where the body ends with [continue] or [break]. *)
Fixpoint while {St : Type} (fuel : nat) (cond : St -> bool)
    (body : St -> run (flow St)) (s : St) : run St :=
  if cond s then
    match fuel with
    | O => OutOfFuel
    | S fuel' =>
        match body s with
        | Done (Continue s') => while fuel' cond body s'
        | Done (Break s') => Done s'
        | Raise e => Raise e
        | OutOfFuel => OutOfFuel
        end
    end
  else Done s.

(** ** Python values *)

Abbreviation pystr := (list Z) (only parsing).
Abbreviation bytes := (list byte) (only parsing).

Inductive pyval : Type :=
| VInt (z : Z)
| VFloat (f : float)
| VStr (s : pystr)
| VList (l : list pyval).

Abbreviation dict := (gmap string pyval) (only parsing).

(** A [str] literal of the source, as code points. *)
Definition str (s : string) : pystr :=
  map (fun a => Z.of_N (N_of_ascii a)) (list_ascii_of_string s).

(** ** Sequences: [len], [l[i]], [l[a:b]], [l[a:]] *)

Definition len {A : Type} (l : list A) : Z := Z.of_nat (length l).

Definition getitem {A : Type} (l : list A) (i : Z) : run A :=
  let j := if i <? 0 then i + len l else i in
  if (j <? 0) || (len l <=? j) then Raise IndexError
  else match l !! Z.to_nat j with
       | Some x => Done x
       | None => Raise IndexError
       end.

Definition slice_bound (n i : Z) : Z :=
  if i <? 0 then Z.max (i + n) 0 else Z.min i n.

Definition slice {A : Type} (l : list A) (start stop : Z) : list A :=
  let a := slice_bound (len l) start in
  let b := slice_bound (len l) stop in
  take (Z.to_nat (b - a)) (drop (Z.to_nat a) l).

Definition slice_from {A : Type} (l : list A) (start : Z) : list A :=
  drop (Z.to_nat (slice_bound (len l) start)) l.

(** ** [bytes] and [bytearray] *)

Definition byte_val (b : byte) : Z := Z.of_N (Byte.to_N b).

Definition byte_of_int (z : Z) : option byte :=
  if z <? 0 then None else Byte.of_N (Z.to_N z).

(** [data[i]] on a [bytes] object is an [int]. *)
Definition bytes_getitem (data : bytes) (i : Z) : run Z :=
  let* b := getitem data i in Done (byte_val b).

(** [out.append(v)] raises [ValueError] unless [0 <= v < 256]. *)
Definition bytearray_append (out : bytes) (v : Z) : run bytes :=
  match byte_of_int v with
  | Some b => Done (out ++ [b])
  | None => Raise ValueError
  end.

(** [int.from_bytes(bs, "big")] *)
Definition int_from_bytes_big (bs : bytes) : Z :=
  fold_left (fun acc b => acc * 256 + byte_val b) bs 0.

(** [struct.unpack(">I", bs)[0]] with [width = 4], [">H"] with [width = 2]:
    [struct.error] unless the buffer has exactly the width of the format. *)
Definition struct_unpack_be (width : Z) (bs : bytes) : run Z :=
  if len bs =? width then Done (int_from_bytes_big bs) else Raise StructError.

Fixpoint is_prefix (sub data : bytes) : bool :=
  match sub, data with
  | [], _ => true
  | a :: sub', b :: data' => Byte.eqb a b && is_prefix sub' data'
  | _ :: _, [] => false
  end.

Fixpoint find_from (sub data : bytes) (k : Z) : Z :=
  if is_prefix sub data then k
  else match data with
       | [] => -1
       | _ :: rest => find_from sub rest (k + 1)
       end.

(** [data.find(sub)]: the lowest index where [sub] occurs, or [-1]. *)
Definition bytes_find (data sub : bytes) : Z := find_from sub data 0.

(** ** [bytes.decode(errors="ignore")]

    The codec is UTF-8.  With the [ignore] handler an invalid start byte
    is dropped, a sequence broken by a byte that is no continuation byte
    loses the bytes before the offending one (which is then read as a start
    byte), and a sequence cut off by the end of the input is dropped. *)

Definition is_continuation (c : Z) : bool := (0x80 <=? c) && (c <? 0xC0).

Fixpoint bytes_decode_ignore (s : bytes) : pystr :=
  match s with
  | [] => []
  | b1 :: t1 =>
      let ch := byte_val b1 in
      if ch <? 0x80 then ch :: bytes_decode_ignore t1
      else if ch <? 0xC2 then bytes_decode_ignore t1
      else if ch <? 0xE0 then
        match t1 with
        | [] => []
        | b2 :: t2 =>
            let ch2 := byte_val b2 in
            if negb (is_continuation ch2) then bytes_decode_ignore t1
            else Z.lor (Z.shiftl (Z.land ch 0x1F) 6) (Z.land ch2 0x3F)
                 :: bytes_decode_ignore t2
        end
      else if ch <? 0xF0 then
        match t1 with
        | [] => []
        | b2 :: t2 =>
            let ch2 := byte_val b2 in
            if negb (is_continuation ch2)
               || (if ch2 <? 0xA0 then ch =? 0xE0 else ch =? 0xED)
            then bytes_decode_ignore t1
            else match t2 with
                 | [] => []
                 | b3 :: t3 =>
                     let ch3 := byte_val b3 in
                     if negb (is_continuation ch3) then bytes_decode_ignore t2
                     else Z.lor (Z.shiftl (Z.land ch 0x0F) 12)
                            (Z.lor (Z.shiftl (Z.land ch2 0x3F) 6)
                                   (Z.land ch3 0x3F))
                          :: bytes_decode_ignore t3
                 end
        end
      else if ch <? 0xF5 then
        match t1 with
        | [] => []
        | b2 :: t2 =>
            let ch2 := byte_val b2 in
            if negb (is_continuation ch2)
               || (if ch2 <? 0x90 then ch =? 0xF0 else ch =? 0xF4)
            then bytes_decode_ignore t1
            else match t2 with
                 | [] => []
                 | b3 :: t3 =>
                     let ch3 := byte_val b3 in
                     if negb (is_continuation ch3) then bytes_decode_ignore t2
                     else match t3 with
                          | [] => []
                          | b4 :: t4 =>
                              let ch4 := byte_val b4 in
                              if negb (is_continuation ch4)
                              then bytes_decode_ignore t3
                              else Z.lor (Z.shiftl (Z.land ch 0x07) 18)
                                     (Z.lor (Z.shiftl (Z.land ch2 0x3F) 12)
                                        (Z.lor (Z.shiftl (Z.land ch3 0x3F) 6)
                                               (Z.land ch4 0x3F)))
                                   :: bytes_decode_ignore t4
                          end
                 end
        end
      else bytes_decode_ignore t1
  end.

(** ** [str.strip(chars)], [str.lstrip], [str.rstrip] *)

Definition in_chars (chars : pystr) (c : Z) : bool :=
  existsb (Z.eqb c) chars.

Fixpoint str_lstrip (chars s : pystr) : pystr :=
  match s with
  | [] => []
  | c :: rest => if in_chars chars c then str_lstrip chars rest else s
  end.

Definition str_rstrip (chars s : pystr) : pystr :=
  rev (str_lstrip chars (rev s)).

Definition str_strip (chars s : pystr) : pystr :=
  str_rstrip chars (str_lstrip chars s).

(** ** [datetime(year, month, day, hour, minute).isoformat()] *)

Record datetime : Type := mk_datetime {
  dt_year : Z;
  dt_month : Z;
  dt_day : Z;
  dt_hour : Z;
  dt_minute : Z;
  dt_second : Z
}.

Definition is_leap (y : Z) : bool :=
  (y mod 4 =? 0) && (negb (y mod 100 =? 0) || (y mod 400 =? 0)).

Definition days_in_month (y m : Z) : Z :=
  if m =? 2 then (if is_leap y then 29 else 28)
  else if (m =? 4) || (m =? 6) || (m =? 9) || (m =? 11) then 30
  else 31.

(** The constructor raises [ValueError] on a field out of range. *)
Definition datetime_new (year month day hour minute : Z) : run datetime :=
  if negb ((1 <=? year) && (year <=? 9999)) then Raise ValueError
  else if negb ((1 <=? month) && (month <=? 12)) then Raise ValueError
  else if negb ((1 <=? day) && (day <=? days_in_month year month))
       then Raise ValueError
  else if negb ((0 <=? hour) && (hour <=? 23)) then Raise ValueError
  else if negb ((0 <=? minute) && (minute <=? 59)) then Raise ValueError
  else Done (mk_datetime year month day hour minute 0).

(** [w] decimal digits of [n], zero padded: ["%0wd" % n] for
    [0 <= n < 10^w], which the constructor guarantees for every field. *)
Fixpoint zfill (w : nat) (n : Z) : pystr :=
  match w with
  | O => []
  | S w' => zfill w' (n / 10) ++ [48 + n mod 10]
  end.

(** No microseconds and no time zone: [YYYY-MM-DDTHH:MM:SS]. *)
Definition isoformat (d : datetime) : pystr :=
  zfill 4 (dt_year d) ++ str "-" ++ zfill 2 (dt_month d) ++ str "-"
  ++ zfill 2 (dt_day d) ++ str "T" ++ zfill 2 (dt_hour d) ++ str ":"
  ++ zfill 2 (dt_minute d) ++ str ":" ++ zfill 2 (dt_second d).

(** ** Floats

    [v / 1000.0] converts the [int] to a binary64 float and divides.  The
    conversion below is the exact one for [0 <= v < 2^53]; the decoder only
    converts values unpacked from four bytes. *)

Definition float_of_int (v : Z) : float := PrimFloat.of_uint63 (Uint63.of_Z v).

Definition truediv (v : Z) (d : float) : float :=
  PrimFloat.div (float_of_int v) d.

(** * decoder.py *)

(** ** [unescape_hdlc] *)

Record ustate : Type := mk_ustate {
  u_out : bytes;
  u_i : Z
}.

Definition unescape_body (data : bytes) (ln : Z) (s : ustate)
  : run (flow ustate) :=
  let i := u_i s in
  let* b := bytes_getitem data i in
  if (b =? 0x7D) && (i + 1 <? ln) then
    let* b1 := bytes_getitem data (i + 1) in
    let* out := bytearray_append (u_out s) (Z.lxor b1 0x20) in
    Done (Continue (mk_ustate out (i + 2)))
  else
    let* out := bytearray_append (u_out s) b in
    Done (Continue (mk_ustate out (i + 1))).

Definition unescape_hdlc (data : bytes) : run bytes :=
  let ln := len data in
  let* s := while (length data) (fun s => u_i s <? ln) (unescape_body data ln)
         (mk_ustate [] 0) in
  Done (u_out s).

(** ** [_safe_parse_timestamp] *)

Definition _safe_parse_timestamp (value : bytes) : run (option pystr) :=
  try_except
    (let* bad :=
       (if negb (len value =? 12) then Done true
        else let* v0 := bytes_getitem value 0 in Done (negb (v0 =? 0x07))) in
     if bad then Done None
     else
       let year := int_from_bytes_big (slice value 1 3) in
       let* month := bytes_getitem value 3 in
       let* day := bytes_getitem value 4 in
       let* hour := bytes_getitem value 6 in
       let* minute := bytes_getitem value 7 in
       if negb ((1970 <=? year) && (year <=? 2100)) then Done None
       else if negb ((1 <=? month) && (month <=? 12)
                     && (1 <=? day) && (day <=? 31)
                     && (0 <=? hour) && (hour <=? 23)
                     && (0 <=? minute) && (minute <=? 59))
       then Done None
       else
         let* d := datetime_new year month day hour minute in
         Done (Some (isoformat d)))
    (fun _ => Done None).

(** ** [parse_tlv] *)

Record pstate : Type := mk_pstate {
  p_i : Z;
  p_result : dict;
  p_u32 : list Z
}.

(** [if ts:] on a [str | None]. *)
Definition truthy_str (ts : option pystr) : bool :=
  match ts with
  | Some (_ :: _) => true
  | _ => false
  end.

(** [result.setdefault(key, []).append(v)] *)
Definition setdefault_append (result : dict) (key : string) (v : pyval)
  : run dict :=
  match result !! key with
  | None => Done (<[key := VList [v]]> result)
  | Some (VList l) => Done (<[key := VList (l ++ [v])]> result)
  | Some _ => Raise AttributeError
  end.

Definition tlv_body (payload : bytes) (s : pstate) : run (flow pstate) :=
  let result := p_result s in
  let u32_values := p_u32 s in
  let i := p_i s in
  let* tag := bytes_getitem payload i in
  let i := i + 1 in
  if tag =? 0x02 then
    if i >=? len payload then Done (Break (mk_pstate i result u32_values))
    else
      let* _count := bytes_getitem payload i in
      let i := i + 1 in
      Done (Continue (mk_pstate i result u32_values))
  else if tag =? 0x09 then
    if i >=? len payload then Done (Break (mk_pstate i result u32_values))
    else
      let* length := bytes_getitem payload i in
      let i := i + 1 in
      if i + length >? len payload
      then Done (Break (mk_pstate i result u32_values))
      else
        let value := slice payload i (i + length) in
        let i := i + length in
        let* ts := _safe_parse_timestamp value in
        let* result :=
          (if truthy_str ts then
             Done (<["timestamp" := VStr (default [] ts)]> result)
           else if length =? 7 then
             setdefault_append result "strings"
               (VStr (bytes_decode_ignore value))
           else if length =? 16 then
             Done (<["meter_id" :=
                       VStr (str_strip [0] (bytes_decode_ignore value))]>
                     result)
           else if length =? 8 then
             Done (<["meter_model" := VStr (bytes_decode_ignore value)]>
                     result)
           else Done result) in
        Done (Continue (mk_pstate i result u32_values))
  else if tag =? 0x06 then
    if i + 4 >? len payload then Done (Break (mk_pstate i result u32_values))
    else
      let* val := struct_unpack_be 4 (slice payload i (i + 4)) in
      let i := i + 4 in
      Done (Continue (mk_pstate i result (u32_values ++ [val])))
  else if tag =? 0x10 then
    if i + 2 >? len payload then Done (Break (mk_pstate i result u32_values))
    else
      let* val := struct_unpack_be 2 (slice payload i (i + 2)) in
      let i := i + 2 in
      let* result := setdefault_append result "u16_values" (VInt val) in
      Done (Continue (mk_pstate i result u32_values))
  else if (tag =? 0x0F) || (tag =? 0x11) then
    if i >=? len payload then Done (Break (mk_pstate i result u32_values))
    else
      let i := i + 1 in
      Done (Continue (mk_pstate i result u32_values))
  else Done (Break (mk_pstate i result u32_values)).

(** The walk: lines 75 to 139, the state when the loop is left. *)
Definition tlv_walk (payload : bytes) : run pstate :=
  while (length payload) (fun s => p_i s <? len payload) (tlv_body payload)
    (mk_pstate 0 ∅ []).

(** [for v in u32_values: if v > 100_000: ...; break] *)
Fixpoint find_import_total (u32_values : list Z) (result : dict) : dict :=
  match u32_values with
  | [] => result
  | v :: rest =>
      if v >? 100000
      then <["active_import_total" := VFloat (truediv v 1000)]> result
      else find_import_total rest result
  end.

(** The mapping heuristics: lines 145 to 172. *)
Definition map_fields (result : dict) (u32_values : list Z) : run dict :=
  let* result :=
    (if negb (len u32_values =? 0) then
       let* v := getitem u32_values 0 in
       Done (<["active_power_import" := VInt v]> result)
     else Done result) in
  let* result :=
    (if len u32_values >=? 9 then
       let tail := slice_from u32_values (-9) in
       let* c1 := getitem tail 3 in
       let* c2 := getitem tail 4 in
       let* c3 := getitem tail 5 in
       let result := <["current_l1" := VFloat (truediv c1 1000)]> result in
       let result := <["current_l2" := VFloat (truediv c2 1000)]> result in
       let result := <["current_l3" := VFloat (truediv c3 1000)]> result in
       let* v1 := getitem tail 6 in
       let* v2 := getitem tail 7 in
       let* v3 := getitem tail 8 in
       let result := <["voltage_l1" := VFloat (truediv v1 10)]> result in
       let result := <["voltage_l2" := VFloat (truediv v2 10)]> result in
       let result := <["voltage_l3" := VFloat (truediv v3 10)]> result in
       Done result
     else Done result) in
  Done (find_import_total u32_values result).

Definition parse_tlv (payload : bytes) : run dict :=
  let* s := tlv_walk payload in
  map_fields (p_result s) (p_u32 s).

(** ** [decode_tibber_pulse_message] *)

Definition primary_anchor : bytes := [x02; x0d; x09; x07].
Definition fallback_anchor : bytes := [x09; x0c; x07].

(** [if decoded:] on a [dict]. *)
Definition truthy_dict (d : dict) : bool := negb (Nat.eqb (size d) 0).

(** One attempt: [k = data.find(anchor)]; if [k != -1], parse [data[k:]] and
    return the fields when there are any.  [None] is falling through. *)
Definition attempt (data anchor : bytes) : run (option dict) :=
  let start := bytes_find data anchor in
  if negb (start =? -1) then
    let* decoded := parse_tlv (slice_from data start) in
    if truthy_dict decoded then Done (Some decoded) else Done None
  else Done None.

Definition decode_tibber_pulse_message (payload : bytes) : run dict :=
  if len payload =? 0 then Done ∅
  else
    let* data := unescape_hdlc payload in
    let* r := attempt data primary_anchor in
    match r with
    | Some decoded => Done decoded
    | None =>
        let* r := attempt data fallback_anchor in
        match r with
        | Some decoded => Done decoded
        | None => Done ∅
        end
    end.

(** * Vocabulary of the statements *)

(** ** Unescaping, as the specification words it

    Read left to right over the values of the bytes: the marker 0x7D
    followed by a byte stands for that byte XOR 0x20; a marker that is the
    last byte stands for itself; every other byte stands for itself. *)
Fixpoint unescape_spec (data : list Z) : list Z :=
  match data with
  | [] => []
  | b :: rest =>
      if b =? 0x7D then
        match rest with
        | [] => [b]
        | b1 :: rest' => Z.lxor b1 0x20 :: unescape_spec rest'
        end
      else b :: unescape_spec rest
  end.

(** ** The elements met by the walk

    [read_element payload i] is the element that one turn of the loop of
    [parse_tlv] reads at cursor [i], with the cursor after it, and [None]
    where that turn leaves the loop. *)

Inductive element : Type :=
| Structure (count : Z)
| OctetString (value : bytes)
| DoubleLongUnsigned (v : Z)
| LongUnsigned (v : Z)
| SmallInt.

Definition read_element (payload : bytes) (i : Z) : option (element * Z) :=
  match payload !! Z.to_nat i with
  | None => None
  | Some b =>
      let tag := byte_val b in
      let i := i + 1 in
      if tag =? 0x02 then
        match payload !! Z.to_nat i with
        | None => None
        | Some c => Some (Structure (byte_val c), i + 1)
        end
      else if tag =? 0x09 then
        match payload !! Z.to_nat i with
        | None => None
        | Some l =>
            let length := byte_val l in
            let i := i + 1 in
            if i + length >? len payload then None
            else Some (OctetString (slice payload i (i + length)), i + length)
        end
      else if tag =? 0x06 then
        if i + 4 >? len payload then None
        else Some (DoubleLongUnsigned
                     (int_from_bytes_big (slice payload i (i + 4))), i + 4)
      else if tag =? 0x10 then
        if i + 2 >? len payload then None
        else Some (LongUnsigned
                     (int_from_bytes_big (slice payload i (i + 2))), i + 2)
      else if (tag =? 0x0F) || (tag =? 0x11) then
        match payload !! Z.to_nat i with
        | None => None
        | Some _ => Some (SmallInt, i + 1)
        end
      else None
  end.

Fixpoint elements_from (fuel : nat) (payload : bytes) (i : Z)
  : list element :=
  match fuel with
  | O => []
  | S fuel' =>
      if i <? len payload then
        match read_element payload i with
        | Some (e, j) => e :: elements_from fuel' payload j
        | None => []
        end
      else []
  end.

(** The elements of a payload, in the order the walk meets them. *)
Definition elements (payload : bytes) : list element :=
  elements_from (length payload) payload 0.

(** What the walk makes of an octet string (lines 102 to 110). *)
Inductive octet_kind : Type :=
| KTimestamp (ts : pystr)
| KString (s : pystr)
| KMeterId (s : pystr)
| KMeterModel (s : pystr)
| KIgnored.

Definition classify (value : bytes) : octet_kind :=
  match _safe_parse_timestamp value with
  | Done (Some (c :: ts)) => KTimestamp (c :: ts)
  | _ =>
      if len value =? 7 then KString (bytes_decode_ignore value)
      else if len value =? 16
           then KMeterId (str_strip [0] (bytes_decode_ignore value))
      else if len value =? 8 then KMeterModel (bytes_decode_ignore value)
      else KIgnored
  end.

Definition timestamp_of (e : element) : option pystr :=
  match e with
  | OctetString value =>
      match classify value with KTimestamp ts => Some ts | _ => None end
  | _ => None
  end.

Definition string_of (e : element) : option pystr :=
  match e with
  | OctetString value =>
      match classify value with KString s => Some s | _ => None end
  | _ => None
  end.

Definition meter_id_of (e : element) : option pystr :=
  match e with
  | OctetString value =>
      match classify value with KMeterId s => Some s | _ => None end
  | _ => None
  end.

Definition meter_model_of (e : element) : option pystr :=
  match e with
  | OctetString value =>
      match classify value with KMeterModel s => Some s | _ => None end
  | _ => None
  end.

Definition u16_of (e : element) : option Z :=
  match e with LongUnsigned v => Some v | _ => None end.

Definition u32_of (e : element) : option Z :=
  match e with DoubleLongUnsigned v => Some v | _ => None end.

(** The list under a list-valued key, empty while the key is unset. *)
Definition list_at (result : dict) (key : string) : list pyval :=
  match result !! key with
  | Some (VList l) => l
  | _ => []
  end.

(** The effect of one element on [result]. *)
Definition store_element (result : dict) (e : element) : dict :=
  match e with
  | OctetString value =>
      match classify value with
      | KTimestamp ts => <["timestamp" := VStr ts]> result
      | KString s =>
          <["strings" := VList (list_at result "strings" ++ [VStr s])]> result
      | KMeterId s => <["meter_id" := VStr s]> result
      | KMeterModel s => <["meter_model" := VStr s]> result
      | KIgnored => result
      end
  | LongUnsigned v =>
      <["u16_values" := VList (list_at result "u16_values" ++ [VInt v])]>
        result
  | _ => result
  end.

(** A list-valued key of the output: unset while nothing was appended. *)
Definition list_value (l : list pyval) : option pyval :=
  match l with
  | [] => None
  | _ :: _ => Some (VList l)
  end.

(** The keys to which the walk appends hold lists. *)
Definition wf_result (result : dict) : Prop :=
  forall key, key = "strings"%string \/ key = "u16_values"%string ->
    result !! key = None \/ exists l, result !! key = Some (VList l).

(** The value under [key] in the mapping that a run returns. *)
Definition field (r : run dict) (key : string) : option pyval :=
  match r with
  | Done m => m !! key
  | _ => None
  end.

(** ** States the walk passes through *)

Inductive reach (payload : bytes) : pstate -> Prop :=
| reach_start : reach payload (mk_pstate 0 ∅ [])
| reach_turn s s' :
    reach payload s ->
    (p_i s <? len payload) = true ->
    tlv_body payload s = Done (Continue s') ->
    reach payload s'.

(** The conditions under which the walk stops at cursor [i]: a tag that is
    not recognized, or a recognized tag whose data do not fit in what is
    left of the buffer. *)
Definition halts_at (payload : bytes) (i : Z) : Prop :=
  0 <= i < len payload /\
  exists tag, bytes_getitem payload i = Done tag /\
    ((tag <> 0x02 /\ tag <> 0x09 /\ tag <> 0x06 /\ tag <> 0x10
      /\ tag <> 0x0F /\ tag <> 0x11)
     \/ (tag = 0x09 /\ len payload <= i + 1)
     \/ (tag = 0x09 /\
         exists length, bytes_getitem payload (i + 1) = Done length /\
                        len payload < i + 2 + length)
     \/ (tag = 0x06 /\ len payload < i + 1 + 4)
     \/ (tag = 0x10 /\ len payload < i + 1 + 2)
     \/ ((tag = 0x0F \/ tag = 0x11) /\ len payload < i + 1 + 1)
     \/ (tag = 0x02 /\ len payload < i + 1 + 1)).

(** ** Anchors *)

(** [k] is the first offset of [data] at which [anchor] occurs. *)
Definition first_occurrence (anchor data : bytes) (k : nat) : Prop :=
  (k <= length data)%nat /\ anchor `prefix_of` drop k data /\
  forall j, (j < k)%nat -> ~ anchor `prefix_of` drop j data.

(** The anchor is found, and parsing from its first occurrence gives the
    non-empty mapping [fields]. *)
Definition yields (anchor data : bytes) (fields : dict) : Prop :=
  exists k, first_occurrence anchor data k /\
            parse_tlv (drop k data) = Done fields /\ fields <> ∅.

(** ** Sample payloads *)

(** Nine double-long-unsigned elements: 500, 1, 2, 10, 20, 30, 2300, 2310,
    2320. *)
Definition sample_phases : bytes :=
  [x06; x00; x00; x01; xf4;  x06; x00; x00; x00; x01;
   x06; x00; x00; x00; x02;  x06; x00; x00; x00; x0a;
   x06; x00; x00; x00; x14;  x06; x00; x00; x00; x1e;
   x06; x00; x00; x08; xfc;  x06; x00; x00; x09; x06;
   x06; x00; x00; x09; x10].

(** 500, 150000, 200000 as double-long-unsigned elements. *)
Definition sample_totals : bytes :=
  [x06; x00; x00; x01; xf4;  x06; x00; x02; x49; xf0;
   x06; x00; x03; x0d; x40].

(** A single double-long-unsigned element: 150000. *)
Definition sample_large_first : bytes := [x06; x00; x02; x49; xf0].

(** Two octet strings of each kind, with two long-unsigned elements. *)
Definition sample_repeats : bytes :=
  [x09; x07; x41; x42; x43; x44; x45; x46; x47;
   x09; x0c; x07; x07; xe9; x0b; x15; x00; x0a; x1e; x00; x00; x00; x00;
   x09; x10; x31; x32; x33; x34; x35; x36; x37; x38;
             x39; x30; x31; x32; x33; x34; x35; x36;
   x10; x01; x02;
   x09; x08; x4d; x4f; x44; x45; x4c; x2d; x31; x20;
   x09; x07; x48; x49; x4a; x4b; x4c; x4d; x4e;
   x09; x0c; x07; x07; xea; x01; x02; x00; x03; x04; x00; x00; x00; x00;
   x09; x10; x36; x35; x34; x33; x32; x31; x30; x39;
             x38; x37; x36; x35; x34; x33; x32; x31;
   x10; x01; x03;
   x09; x08; x4d; x4f; x44; x45; x4c; x2d; x32; x20].

(** A structure header, 500 as a double-long-unsigned, 258 as a
    long-unsigned, then an octet string that declares seven bytes where two
    are left. *)
Definition sample_truncated : bytes :=
  [x02; x0d;  x06; x00; x00; x01; xf4;  x10; x01; x02;
   x09; x07; x41; x42].

(** The state of the walk in front of that octet string. *)
Definition sample_truncated_state : pstate :=
  mk_pstate 10 (<["u16_values" := VList [VInt 258]]> ∅) [500].

(** The primary anchor, cut off inside its first octet string. *)
Definition sample_anchor_cut : bytes := [x02; x0d; x09; x07; x41].

(** The sixteen bytes 00 00 "METER-1" 00 00 00 00 00 00 00. *)
Definition sample_meter_value : bytes :=
  [x00; x00; x4d; x45; x54; x45; x52; x2d; x31;
   x00; x00; x00; x00; x00; x00; x00].

(** An octet string of declared length 16 holding them. *)
Definition sample_meter_id : bytes := [x09; x10] ++ sample_meter_value.

(** A frame between two flags 7E whose first byte 02 is escaped as 7D 22:
    the primary anchor, the octet string "ABCDEFG" and 500 as a
    double-long-unsigned. *)
Definition sample_frame : bytes :=
  [x7e; x7d; x22; x0d; x09; x07; x41; x42; x43; x44; x45; x46; x47;
   x06; x00; x00; x01; xf4; x7e].

(** A timestamp octet string in the layout of [_safe_parse_timestamp]
    (marker 07, then the year 07E9), a byte of noise, and the primary anchor
    with nothing after it. *)
Definition sample_fallback : bytes :=
  [x09; x0c; x07; x07; xe9; x0b; x15; x00; x0a; x1e; x00; x00; x00; x00;
   xff; x02; x0d; x09; x07].

(** The twelve bytes named by the specification. *)
Definition sample_timestamp : bytes :=
  [x07; xe9; x0b; x15; x01; x00; x0a; x1e; x00; x00; x00; x00].

(** The same with 00 01 at offsets 1 and 2, and with 00 01 at offsets 0
    and 1. *)
Definition sample_timestamp_year1 : bytes :=
  [x07; x00; x01; x15; x01; x00; x0a; x1e; x00; x00; x00; x00].

Definition sample_timestamp_year1_head : bytes :=
  [x00; x01; x0b; x15; x01; x00; x0a; x1e; x00; x00; x00; x00].

(** Twelve bytes that read 2025-11-21 10:30 in the layout of the code. *)
Definition sample_timestamp_shifted : bytes :=
  [x07; x07; xe9; x0b; x15; x00; x0a; x1e; x00; x00; x00; x00].

(** * The rest of [decoder.py] *)

(** ** [crc16_xmodem]

    [binascii.crc_hqx(data, value)] keeps a 16-bit register and takes one
    byte at a time through the table [crctab_hqx] of the CRC-CCITT
    polynomial 0x1021:
    [crc = ((crc << 8) & 0xff00) ^ crctab_hqx[(crc >> 8) ^ byte]]. *)

Definition crctab_hqx : list Z :=
  [
   0x0000; 0x1021; 0x2042; 0x3063; 0x4084; 0x50a5; 0x60c6; 0x70e7;
   0x8108; 0x9129; 0xa14a; 0xb16b; 0xc18c; 0xd1ad; 0xe1ce; 0xf1ef;
   0x1231; 0x0210; 0x3273; 0x2252; 0x52b5; 0x4294; 0x72f7; 0x62d6;
   0x9339; 0x8318; 0xb37b; 0xa35a; 0xd3bd; 0xc39c; 0xf3ff; 0xe3de;
   0x2462; 0x3443; 0x0420; 0x1401; 0x64e6; 0x74c7; 0x44a4; 0x5485;
   0xa56a; 0xb54b; 0x8528; 0x9509; 0xe5ee; 0xf5cf; 0xc5ac; 0xd58d;
   0x3653; 0x2672; 0x1611; 0x0630; 0x76d7; 0x66f6; 0x5695; 0x46b4;
   0xb75b; 0xa77a; 0x9719; 0x8738; 0xf7df; 0xe7fe; 0xd79d; 0xc7bc;
   0x48c4; 0x58e5; 0x6886; 0x78a7; 0x0840; 0x1861; 0x2802; 0x3823;
   0xc9cc; 0xd9ed; 0xe98e; 0xf9af; 0x8948; 0x9969; 0xa90a; 0xb92b;
   0x5af5; 0x4ad4; 0x7ab7; 0x6a96; 0x1a71; 0x0a50; 0x3a33; 0x2a12;
   0xdbfd; 0xcbdc; 0xfbbf; 0xeb9e; 0x9b79; 0x8b58; 0xbb3b; 0xab1a;
   0x6ca6; 0x7c87; 0x4ce4; 0x5cc5; 0x2c22; 0x3c03; 0x0c60; 0x1c41;
   0xedae; 0xfd8f; 0xcdec; 0xddcd; 0xad2a; 0xbd0b; 0x8d68; 0x9d49;
   0x7e97; 0x6eb6; 0x5ed5; 0x4ef4; 0x3e13; 0x2e32; 0x1e51; 0x0e70;
   0xff9f; 0xefbe; 0xdfdd; 0xcffc; 0xbf1b; 0xaf3a; 0x9f59; 0x8f78;
   0x9188; 0x81a9; 0xb1ca; 0xa1eb; 0xd10c; 0xc12d; 0xf14e; 0xe16f;
   0x1080; 0x00a1; 0x30c2; 0x20e3; 0x5004; 0x4025; 0x7046; 0x6067;
   0x83b9; 0x9398; 0xa3fb; 0xb3da; 0xc33d; 0xd31c; 0xe37f; 0xf35e;
   0x02b1; 0x1290; 0x22f3; 0x32d2; 0x4235; 0x5214; 0x6277; 0x7256;
   0xb5ea; 0xa5cb; 0x95a8; 0x8589; 0xf56e; 0xe54f; 0xd52c; 0xc50d;
   0x34e2; 0x24c3; 0x14a0; 0x0481; 0x7466; 0x6447; 0x5424; 0x4405;
   0xa7db; 0xb7fa; 0x8799; 0x97b8; 0xe75f; 0xf77e; 0xc71d; 0xd73c;
   0x26d3; 0x36f2; 0x0691; 0x16b0; 0x6657; 0x7676; 0x4615; 0x5634;
   0xd94c; 0xc96d; 0xf90e; 0xe92f; 0x99c8; 0x89e9; 0xb98a; 0xa9ab;
   0x5844; 0x4865; 0x7806; 0x6827; 0x18c0; 0x08e1; 0x3882; 0x28a3;
   0xcb7d; 0xdb5c; 0xeb3f; 0xfb1e; 0x8bf9; 0x9bd8; 0xabbb; 0xbb9a;
   0x4a75; 0x5a54; 0x6a37; 0x7a16; 0x0af1; 0x1ad0; 0x2ab3; 0x3a92;
   0xfd2e; 0xed0f; 0xdd6c; 0xcd4d; 0xbdaa; 0xad8b; 0x9de8; 0x8dc9;
   0x7c26; 0x6c07; 0x5c64; 0x4c45; 0x3ca2; 0x2c83; 0x1ce0; 0x0cc1;
   0xef1f; 0xff3e; 0xcf5d; 0xdf7c; 0xaf9b; 0xbfba; 0x8fd9; 0x9ff8;
   0x6e17; 0x7e36; 0x4e55; 0x5e74; 0x2e93; 0x3eb2; 0x0ed1; 0x1ef0
  ].

Definition crc_hqx_step (crc : Z) (b : byte) : Z :=
  Z.lxor (Z.land (Z.shiftl crc 8) 0xff00)
         (nth (Z.to_nat (Z.lxor (Z.shiftr crc 8) (byte_val b))) crctab_hqx 0).

Definition crc_hqx (data : list byte) (value : Z) : Z :=
  fold_left crc_hqx_step data (Z.land value 0xffff).

Definition crc16_xmodem (data : list byte) : Z := crc_hqx data 0x0000.

(** One shift of the register of the polynomial 0x1021, and the table
    entry it generates: eight shifts of the index placed in the high
    byte. *)
Definition crc_shift (c : Z) : Z :=
  if Z.testbit c 15 then Z.land (Z.lxor (Z.shiftl c 1) 0x1021) 0xffff
  else Z.land (Z.shiftl c 1) 0xffff.

Definition crc_table_entry (i : Z) : Z := Nat.iter 8 crc_shift (Z.shiftl i 8).

(** The ASCII digits 1 to 9, the usual check input of a CRC. *)
Definition sample_check : list byte :=
  [x31; x32; x33; x34; x35; x36; x37; x38; x39].

(** The register processed bit by bit: the byte is added into the high
    half and the register shifted eight times. *)
Definition crc_bitwise (data : list byte) : Z :=
  fold_left (fun c b => Nat.iter 8 crc_shift (Z.lxor c (Z.shiftl (byte_val b) 8)))
    data 0.

(** The five fields that [_safe_parse_timestamp] reads from a value of
    twelve bytes that starts with 07: year, month, day, hour, minute. *)
Definition timestamp_fields (value : list byte) : option (Z * Z * Z * Z * Z) :=
  match value with
  | [b0; b1; b2; b3; b4; _; b6; b7; _; _; _; _] =>
      if byte_val b0 =? 0x07
      then Some (256 * byte_val b1 + byte_val b2, byte_val b3, byte_val b4,
                 byte_val b6, byte_val b7)
      else None
  | _ => None
  end.

(** A minute of a day of the calendar, in the years 1970 to 2100. *)
Definition calendar_minute (y mo d h mi : Z) : bool :=
  (1970 <=? y) && (y <=? 2100) && (1 <=? mo) && (mo <=? 12)
  && (1 <=? d) && (d <=? days_in_month y mo) && (h <=? 23) && (mi <=? 59).


(** The names under which [parse_tlv] stores values. *)
Definition output_keys : list string :=
  ["timestamp"; "strings"; "meter_id"; "meter_model"; "u16_values";
   "active_power_import"; "current_l1"; "current_l2"; "current_l3";
   "voltage_l1"; "voltage_l2"; "voltage_l3"; "active_import_total"]%string.

Definition phase_keys : list string :=
  ["current_l1"; "current_l2"; "current_l3";
   "voltage_l1"; "voltage_l2"; "voltage_l3"]%string.

(** The double-long-unsigned values of a payload, in order. *)
Definition u32_values_of (payload : list byte) : list Z :=
  omap u32_of (elements payload).

(** What one element can hold. *)
Definition element_in_range (e : element) : Prop :=
  match e with
  | DoubleLongUnsigned v => 0 <= v < 2 ^ 32
  | LongUnsigned v => 0 <= v < 2 ^ 16
  | OctetString value => len value < 256
  | Structure count => 0 <= count < 256
  | SmallInt => True
  end.

(** What the walk can make of an octet string, with the sizes. *)
Definition octet_kind_bounded (k : octet_kind) : Prop :=
  match k with
  | KTimestamp ts => len ts = 19
  | KString s => len s <= 7
  | KMeterId s => len s <= 16 /\ head s <> Some 0 /\ last s <> Some 0
  | KMeterModel s => len s <= 8
  | KIgnored => True
  end.

(** A payload of exactly eleven bytes that decodes to a field. *)
Definition sample_shortest : list byte :=
  [x02; x0d; x09; x07; x4b; x46; x4d; x5f; x30; x30; x31].

(** * mqtt_listener.py, __init__.py and sensor.py *)

(** [coordinator.data] is [None] until the first message and afterwards the
    [TibberPulseData] of the last one, whose only field is [values]. *)
Definition coordinator_data : Type := option (gmap string pyval).

(** [_handle_data]: [async_set_updated_data(TibberPulseData(values=decoded))],
    which replaces [coordinator.data]. *)
Definition _handle_data (decoded : gmap string pyval) : coordinator_data :=
  Some decoded.

(** [_message_received]: an exception of the decoder is logged and the
    message dropped; otherwise the callback is called. *)
Definition _message_received (data : coordinator_data) (payload : list byte)
  : run coordinator_data :=
  let* r := try_except
              (let* decoded := decode_tibber_pulse_message payload in
               Done (Some decoded))
              (fun _ => Done None) in
  match r with
  | None => Done data
  | Some decoded => Done (_handle_data decoded)
  end.

Module Sensor.

Record TibberPulseSensorDescription : Type := mk_description {
  key : string;
  suggested_display_precision : option Z
}.


Section NativeValue.

(** [round(val, prec)] of Python on an [int] or a [float]. *)
Variable round : pyval -> Z -> pyval.

(** [native_value]; [None] of Python is [None] here.  A dataclass instance
    is true, so [not data] holds of [None] only. *)
Definition native_value (data : coordinator_data)
    (description : TibberPulseSensorDescription) : option pyval :=
  match data with
  | None => None
  | Some values =>
      match values !! key description with
      | None => None
      | Some val =>
          match suggested_display_precision description, val with
          | Some prec, (VInt _ | VFloat _) => Some (round val prec)
          | _, _ => Some val
          end
      end
  end.

End NativeValue.

End Sensor.

(** * Properties *)

(** ** Sequences and bytes *)

Lemma len_nonneg {A : Type} (l : list A) : 0 <= len l.
Proof. unfold len. lia. Qed.

Lemma len_app {A : Type} (l k : list A) : len (l ++ k) = len l + len k.
Proof. unfold len. rewrite length_app. lia. Qed.

Lemma len_cons {A : Type} (x : A) (l : list A) : len (x :: l) = len l + 1.
Proof. unfold len. simpl. lia. Qed.

Lemma getitem_lookup {A : Type} (l : list A) (i : Z) (x : A) :
  0 <= i -> l !! Z.to_nat i = Some x -> getitem l i = Done x.
Proof.
  intros Hi Hx. unfold getitem.
  apply lookup_lt_Some in Hx as Hlt.
  assert (E : (i <? 0) = false) by lia.
  assert (E2 : (len l <=? i) = false) by (unfold len; lia).
  cbv zeta. rewrite E. cbv iota. rewrite E, E2. simpl.
  rewrite Hx. reflexivity.
Qed.

Lemma getitem_in_range {A : Type} (l : list A) (i : Z) :
  0 <= i < len l ->
  exists x, l !! Z.to_nat i = Some x /\ getitem l i = Done x.
Proof.
  intros Hi. unfold len in Hi.
  destruct (lookup_lt_is_Some_2 l (Z.to_nat i)) as [x Hx]; [lia |].
  exists x. split; [exact Hx | apply getitem_lookup; [lia | exact Hx]].
Qed.

Lemma bytes_getitem_lookup (data : bytes) (i : Z) (b : byte) :
  0 <= i -> data !! Z.to_nat i = Some b ->
  bytes_getitem data i = Done (byte_val b).
Proof.
  intros Hi Hb. unfold bytes_getitem.
  rewrite (getitem_lookup _ _ _ Hi Hb). reflexivity.
Qed.

Lemma bytes_getitem_in_range (data : bytes) (i : Z) :
  0 <= i < len data ->
  exists b, data !! Z.to_nat i = Some b /\
            bytes_getitem data i = Done (byte_val b).
Proof.
  intros Hi. destruct (getitem_in_range data i Hi) as (b & Hb & _).
  exists b. split; [exact Hb | apply bytes_getitem_lookup; [lia | exact Hb]].
Qed.

Lemma byte_val_range (b : byte) : 0 <= byte_val b < 256.
Proof.
  unfold byte_val. pose proof (Byte.to_N_bounded b) as H.
  lia.
Qed.

Lemma byte_of_int_val (b : byte) : byte_of_int (byte_val b) = Some b.
Proof.
  unfold byte_of_int, byte_val.
  pose proof (N2Z.is_nonneg (Byte.to_N b)) as Hnn.
  destruct (Z.of_N (Byte.to_N b) <? 0) eqn:E; [apply Z.ltb_lt in E; lia |].
  rewrite N2Z.id. apply Byte.of_to_N.
Qed.

Lemma byte_of_int_in_range (z : Z) :
  0 <= z < 256 -> exists b, byte_of_int z = Some b /\ byte_val b = z.
Proof.
  intros Hz. unfold byte_of_int. destruct (z <? 0) eqn:E; [lia |].
  destruct (Byte.of_N (Z.to_N z)) as [b |] eqn:Hb.
  - exists b. split; [reflexivity |].
    apply Byte.to_of_N in Hb. unfold byte_val. rewrite Hb. lia.
  - apply Byte.of_N_None_iff in Hb. lia.
Qed.

(** XOR with 0x20 flips one bit below the eighth: it stays a byte. *)
Lemma lxor_0x20_range (z : Z) : 0 <= z < 256 -> 0 <= Z.lxor z 0x20 < 256.
Proof.
  intros Hz. split.
  - apply Z.lxor_nonneg. lia.
  - destruct (Z.eq_dec (Z.lxor z 32) 0) as [-> | Hne]; [lia |].
    assert (Hnn : 0 <= Z.lxor z 32) by (apply Z.lxor_nonneg; lia).
    apply Z.log2_lt_cancel. change (Z.log2 256) with 8.
    pose proof (Z.log2_lxor z 32 ltac:(lia) ltac:(lia)) as Hl.
    change (Z.log2 32) with 5 in Hl.
    assert (Z.log2 z < 8).
    { destruct (Z.eq_dec z 0) as [-> | Hz0]; [simpl; lia |].
      apply Z.log2_lt_pow2; lia. }
    lia.
Qed.

Lemma bytearray_append_byte (out : bytes) (b : byte) :
  bytearray_append out (byte_val b) = Done (out ++ [b]).
Proof. unfold bytearray_append. rewrite byte_of_int_val. reflexivity. Qed.

(** ** Loops *)

Section While.
Context {St : Type} (cond : St -> bool) (body : St -> run (flow St)).

(** More fuel does not change what a loop returns. *)
Lemma while_fuel_mono (fuel : nat) :
  forall s r fuel', while fuel cond body s = Done r -> (fuel <= fuel')%nat ->
    while fuel' cond body s = Done r.
Proof.
  induction fuel as [| fuel IH]; intros s r fuel' H Hle.
  - destruct fuel'; simpl in *; destruct (cond s); congruence.
  - destruct fuel' as [| fuel']; [lia |].
    simpl in *. destruct (cond s); [| exact H].
    destruct (body s) as [[s' | s'] | e |]; try discriminate.
    + apply IH; [exact H | lia].
    + exact H.
Qed.

Lemma while_unfold_continue (fuel : nat) (s s' : St) :
  cond s = true -> body s = Done (Continue s') ->
  while (S fuel) cond body s = while fuel cond body s'.
Proof. intros Hc Hb. simpl. rewrite Hc, Hb. reflexivity. Qed.

Lemma while_unfold_break (fuel : nat) (s s' : St) :
  cond s = true -> body s = Done (Break s') ->
  while (S fuel) cond body s = Done s'.
Proof. intros Hc Hb. simpl. rewrite Hc, Hb. reflexivity. Qed.

Lemma while_exit (fuel : nat) (s : St) :
  cond s = false -> while fuel cond body s = Done s.
Proof. intros Hc. destruct fuel; simpl; rewrite Hc; reflexivity. Qed.

End While.

(** ** [unescape_hdlc] *)

Lemma unescape_loop (n : nat) :
  forall (data pre rest out : bytes) (i : Z),
    data = pre ++ rest -> i = len pre -> (length rest <= n)%nat ->
    exists out',
      while n (fun s => u_i s <? len data) (unescape_body data (len data))
        (mk_ustate out i)
      = Done (mk_ustate (out ++ out') (len data))
      /\ map byte_val out' = unescape_spec (map byte_val rest).
Proof.
  induction n as [| n IH]; intros data pre rest out i Hdata Hi Hn.
  - destruct rest; [| simpl in Hn; lia].
    exists []. rewrite app_nil_r in *. subst. split; [| reflexivity].
    apply while_exit. simpl. lia.
  - destruct rest as [| b rest1].
    { exists []. rewrite app_nil_r in *. subst. split; [| reflexivity].
      apply while_exit. simpl. lia. }
    assert (Hlen : len data = i + 1 + len rest1).
    { subst. rewrite len_app, len_cons. lia. }
    assert (Hb : data !! Z.to_nat i = Some b).
    { subst. apply list_lookup_middle. unfold len. lia. }
    pose proof (len_nonneg pre) as Hpre. pose proof (len_nonneg rest1) as Hr1.
    assert (Hget : bytes_getitem data i = Done (byte_val b))
      by (apply bytes_getitem_lookup; [lia | exact Hb]).
    destruct ((byte_val b =? 0x7D) && (i + 1 <? len data)) eqn:Hesc.
    + apply andb_true_iff in Hesc as [Hb7d Hnext].
      destruct rest1 as [| b1 rest2]; [unfold len in *; simpl in *; lia |].
      assert (Hb1 : data !! Z.to_nat (i + 1) = Some b1).
      { subst data. replace (pre ++ b :: b1 :: rest2)
          with ((pre ++ [b]) ++ b1 :: rest2) by (rewrite <- app_assoc; done).
        apply list_lookup_middle. rewrite length_app. simpl.
        unfold len in *. lia. }
      destruct (byte_of_int_in_range (Z.lxor (byte_val b1) 0x20))
        as (x & Hx & Hxv).
      { apply lxor_0x20_range, byte_val_range. }
      destruct (IH data (pre ++ [b; b1]) rest2 (out ++ [x]) (i + 2))
        as (out' & Hrun & Hspec).
      { subst data. rewrite <- app_assoc. reflexivity. }
      { rewrite len_app. unfold len at 2. simpl. lia. }
      { simpl in Hn. lia. }
      exists (x :: out'). split.
      * rewrite while_unfold_continue with (s' := mk_ustate (out ++ [x]) (i + 2)).
        -- rewrite Hrun. rewrite <- app_assoc. reflexivity.
        -- simpl. lia.
        -- unfold unescape_body. simpl u_i. simpl u_out. rewrite Hget. simpl bind.
           rewrite Hb7d, Hnext. simpl andb. cbv iota.
           rewrite (bytes_getitem_lookup data (i + 1) b1); [| lia | exact Hb1].
           simpl bind.
           unfold bytearray_append. rewrite Hx. reflexivity.
      * simpl. rewrite Hb7d, Hxv, Hspec. reflexivity.
    + destruct (IH data (pre ++ [b]) rest1 (out ++ [b]) (i + 1))
        as (out' & Hrun & Hspec).
      { subst data. rewrite <- app_assoc. reflexivity. }
      { rewrite len_app. unfold len at 2. simpl. lia. }
      { simpl in Hn. lia. }
      exists (b :: out'). split.
      * rewrite while_unfold_continue with (s' := mk_ustate (out ++ [b]) (i + 1)).
        -- rewrite Hrun. rewrite <- app_assoc. reflexivity.
        -- simpl. lia.
        -- unfold unescape_body. simpl u_i. simpl u_out. rewrite Hget. simpl bind.
           rewrite Hesc. rewrite bytearray_append_byte. reflexivity.
      * simpl. apply andb_false_iff in Hesc as [Hne | Hlast].
        -- rewrite Hne, Hspec. reflexivity.
        -- assert (rest1 = []) as ->.
           { destruct rest1; [done |]. rewrite len_cons in Hlen.
             pose proof (len_nonneg rest1). lia. }
           simpl in Hspec. destruct out'; [| discriminate].
           destruct (byte_val b =? 125); reflexivity.
Qed.

Lemma unescape_hdlc_refines (data : bytes) :
  exists out, unescape_hdlc data = Done out
              /\ map byte_val out = unescape_spec (map byte_val data).
Proof.
  destruct (unescape_loop (length data) data [] data [] 0)
    as (out & Hrun & Hspec); [reflexivity | reflexivity | lia |].
  exists out. split; [| exact Hspec].
  unfold unescape_hdlc. cbv zeta. rewrite Hrun. reflexivity.
Qed.

(** C7.  For every input, [unescape_hdlc] returns, and the bytes it
    returns are the input read left to right with each escape marker 0x7D
    and the byte after it replaced by that byte XOR 0x20, a marker in last
    position kept as it is, and the other bytes unchanged.  In particular
    7D 20 unescapes to 00 and a lone 7D to 7D. *)
Theorem unescape_hdlc_correct :
  (forall data : bytes,
      exists out, unescape_hdlc data = Done out
                  /\ map byte_val out = unescape_spec (map byte_val data))
  /\ unescape_hdlc [x7d; x20] = Done [x00]
  /\ unescape_hdlc [x7d] = Done [x7d].
Proof.
  split; [exact unescape_hdlc_refines |].
  split; reflexivity.
Qed.

(** ** Slices and lookups *)

Lemma lookup_None_len {A : Type} (l : list A) (j : Z) :
  0 <= j -> l !! Z.to_nat j = None <-> len l <= j.
Proof.
  intros Hj. rewrite lookup_ge_None. unfold len. lia.
Qed.

Lemma slice_bound_id (n i : Z) : 0 <= i <= n -> slice_bound n i = i.
Proof.
  intros Hi. unfold slice_bound.
  destruct (i <? 0) eqn:E; [apply Z.ltb_lt in E; lia |]. lia.
Qed.

Lemma slice_in_range {A : Type} (l : list A) (a b : Z) :
  0 <= a <= b -> b <= len l ->
  slice l a b = take (Z.to_nat (b - a)) (drop (Z.to_nat a) l).
Proof.
  intros Hab Hb. unfold slice.
  rewrite !slice_bound_id by lia. reflexivity.
Qed.

Lemma slice_len {A : Type} (l : list A) (a b : Z) :
  0 <= a <= b -> b <= len l -> len (slice l a b) = b - a.
Proof.
  intros Hab Hb. rewrite slice_in_range by assumption.
  unfold len in *. rewrite length_take, length_drop. lia.
Qed.

Lemma slice_from_drop {A : Type} (l : list A) (k : nat) :
  (k <= length l)%nat -> slice_from l (Z.of_nat k) = drop k l.
Proof.
  intros Hk. unfold slice_from.
  rewrite slice_bound_id by (unfold len; lia).
  rewrite Nat2Z.id. reflexivity.
Qed.

(** ** Outcomes that are not a loop out of fuel *)

Lemma returns_or_raises_bind {A B : Type} (m : run A) (k : A -> run B) :
  returns_or_raises m -> (forall a, returns_or_raises (k a)) ->
  returns_or_raises (bind m k).
Proof. destruct m; simpl; auto. Qed.

Lemma returns_or_raises_getitem {A : Type} (l : list A) (i : Z) :
  returns_or_raises (getitem l i).
Proof.
  unfold getitem. cbv zeta.
  destruct (_ || _); [exact I |]. destruct (l !! _); exact I.
Qed.

Lemma returns_or_raises_bytes_getitem (data : bytes) (i : Z) :
  returns_or_raises (bytes_getitem data i).
Proof.
  unfold bytes_getitem. apply returns_or_raises_bind.
  - apply returns_or_raises_getitem.
  - intros a. exact I.
Qed.

Lemma returns_or_raises_datetime_new (y mo d h mi : Z) :
  returns_or_raises (datetime_new y mo d h mi).
Proof.
  unfold datetime_new.
  repeat match goal with
         | |- returns_or_raises (if ?c then _ else _) => destruct c
         end; exact I.
Qed.

Lemma try_except_Done {A : Type} (m : run A) (x : A) :
  returns_or_raises m -> exists r, try_except m (fun _ => Done x) = Done r.
Proof. destruct m; simpl; [eauto | eauto | tauto]. Qed.

(** ** [_safe_parse_timestamp] *)

(** The [try] of [_safe_parse_timestamp] catches every exception: the
    function always returns, a string or [None]. *)
Lemma _safe_parse_timestamp_total (value : bytes) :
  exists ts, _safe_parse_timestamp value = Done ts.
Proof.
  unfold _safe_parse_timestamp. apply try_except_Done.
  apply returns_or_raises_bind.
  - destruct (negb _); [exact I |].
    apply returns_or_raises_bind;
      [apply returns_or_raises_bytes_getitem | intros; exact I].
  - intros bad. destruct bad; [exact I |]. cbv zeta.
    repeat (apply returns_or_raises_bind;
            [apply returns_or_raises_bytes_getitem | intros ?]).
    destruct (negb _); [exact I |].
    destruct (negb _); [exact I |].
    apply returns_or_raises_bind;
      [apply returns_or_raises_datetime_new | intros; exact I].
Qed.


(** ** One turn of the loop of [parse_tlv] *)

Lemma setdefault_append_wf (result : dict) (key : string) (v : pyval) :
  wf_result result -> key = "strings"%string \/ key = "u16_values"%string ->
  setdefault_append result key v
  = Done (<[key := VList (list_at result key ++ [v])]> result).
Proof.
  intros Hwf Hkey. unfold setdefault_append, list_at.
  destruct (Hwf key Hkey) as [-> | [l ->]]; reflexivity.
Qed.

Lemma classify_timestamp (value : bytes) (ts : option (list Z)) :
  _safe_parse_timestamp value = Done ts -> truthy_str ts = true ->
  classify value = KTimestamp (default [] ts).
Proof.
  intros H Ht. unfold classify. rewrite H.
  destruct ts as [[| c r] |]; try discriminate. reflexivity.
Qed.

Lemma classify_other (value : bytes) (ts : option (list Z)) :
  _safe_parse_timestamp value = Done ts -> truthy_str ts = false ->
  classify value =
    if len value =? 7 then KString (bytes_decode_ignore value)
    else if len value =? 16
         then KMeterId (str_strip [0] (bytes_decode_ignore value))
    else if len value =? 8 then KMeterModel (bytes_decode_ignore value)
    else KIgnored.
Proof.
  intros H Ht. unfold classify. rewrite H.
  destruct ts as [[| c r] |]; try discriminate; reflexivity.
Qed.

Lemma tlv_body_read (payload : bytes) (s : pstate) :
  0 <= p_i s < len payload -> wf_result (p_result s) ->
  match read_element payload (p_i s) with
  | Some (e, j) =>
      tlv_body payload s
      = Done (Continue (mk_pstate j (store_element (p_result s) e)
                          (p_u32 s ++ option_list (u32_of e))))
      /\ p_i s < j <= len payload
  | None =>
      exists j, tlv_body payload s
                = Done (Break (mk_pstate j (p_result s) (p_u32 s)))
  end.
Proof.
  destruct s as [i result u32]. simpl. intros Hi Hwf.
  destruct (bytes_getitem_in_range payload i Hi) as (b & Hb & Hget).
  unfold read_element, tlv_body. simpl p_i. simpl p_result. simpl p_u32.
  rewrite Hb, Hget. simpl bind. cbv zeta.
  set (tag := byte_val b).
  destruct (tag =? 2) eqn:E02.
  { destruct (Z.geb_spec (i + 1) (len payload)) as [Hge | Hlt].
    - rewrite (proj2 (lookup_None_len payload (i + 1) ltac:(lia))) by lia. eauto.
    - destruct (bytes_getitem_in_range payload (i + 1) ltac:(lia)) as (c & Hc & Hgc).
      rewrite Hc, Hgc. simpl. rewrite app_nil_r. split; [reflexivity | lia]. }
  destruct (tag =? 9) eqn:E09.
  { destruct (Z.geb_spec (i + 1) (len payload)) as [Hge | Hlt].
    - rewrite (proj2 (lookup_None_len payload (i + 1) ltac:(lia))) by lia. eauto.
    - destruct (bytes_getitem_in_range payload (i + 1) ltac:(lia)) as (c & Hc & Hgc).
      rewrite Hc, Hgc. simpl bind.
      pose proof (byte_val_range c) as Hcr.
      destruct (Z.gtb_spec (i + 1 + 1 + byte_val c) (len payload)) as [Hgt | Hle]; [eauto |].
      set (value := slice payload (i + 1 + 1) (i + 1 + 1 + byte_val c)).
      assert (Hvl : len value = byte_val c) by (unfold value; rewrite slice_len; lia).
      destruct (_safe_parse_timestamp_total value) as [ts Hts].
      rewrite Hts. simpl bind. split; [| lia]. simpl. rewrite app_nil_r.
      destruct (truthy_str ts) eqn:Ht.
      + rewrite (classify_timestamp _ _ Hts Ht). reflexivity.
      + rewrite (classify_other _ _ Hts Ht). rewrite Hvl.
        destruct (byte_val c =? 7).
        { rewrite setdefault_append_wf by (auto). reflexivity. }
        destruct (byte_val c =? 16); [reflexivity |].
        destruct (byte_val c =? 8); reflexivity. }
  destruct (tag =? 6) eqn:E06.
  { destruct (Z.gtb_spec (i + 1 + 4) (len payload)) as [Hgt | Hle]; [eauto |].
    unfold struct_unpack_be. rewrite slice_len by lia.
    replace (i + 1 + 4 - (i + 1) =? 4) with true by lia.
    simpl. split; [reflexivity | lia]. }
  destruct (tag =? 16) eqn:E10.
  { destruct (Z.gtb_spec (i + 1 + 2) (len payload)) as [Hgt | Hle]; [eauto |].
    unfold struct_unpack_be. rewrite slice_len by lia.
    replace (i + 1 + 2 - (i + 1) =? 2) with true by lia.
    simpl bind. rewrite setdefault_append_wf by auto.
    simpl. rewrite app_nil_r. split; [reflexivity | lia]. }
  destruct ((tag =? 15) || (tag =? 17)) eqn:E0f.
  { destruct (Z.geb_spec (i + 1) (len payload)) as [Hge | Hlt].
    - rewrite (proj2 (lookup_None_len payload (i + 1) ltac:(lia))) by lia. eauto.
    - destruct (bytes_getitem_in_range payload (i + 1) ltac:(lia)) as (c & Hc & Hgc).
      rewrite Hc. simpl. rewrite app_nil_r. split; [reflexivity | lia]. }
  eauto.
Qed.

Lemma wf_result_empty : wf_result ∅.
Proof. intros key _. left. apply lookup_empty. Qed.

Lemma wf_result_insert_list (result : dict) (key : string) (l : list pyval) :
  wf_result result -> wf_result (<[key := VList l]> result).
Proof.
  intros Hwf k Hk. destruct (decide (key = k)) as [-> | Hne].
  - right. exists l. apply lookup_insert_eq.
  - rewrite lookup_insert_ne by exact Hne. apply Hwf, Hk.
Qed.

Lemma wf_result_insert_other (result : dict) (key : string) (v : pyval) :
  key <> "strings"%string -> key <> "u16_values"%string ->
  wf_result result -> wf_result (<[key := v]> result).
Proof.
  intros H1 H2 Hwf k Hk. rewrite lookup_insert_ne by (destruct Hk; congruence).
  apply Hwf, Hk.
Qed.

Lemma wf_result_store (result : dict) (e : element) :
  wf_result result -> wf_result (store_element result e).
Proof.
  intros Hwf. destruct e as [c | value | v | v |]; simpl; try exact Hwf.
  - destruct (classify value); try exact Hwf;
      try (apply wf_result_insert_other; [done | done | exact Hwf]).
    apply wf_result_insert_list, Hwf.
  - apply wf_result_insert_list, Hwf.
Qed.

Lemma tlv_walk_from (payload : bytes) (fuel : nat) :
  forall s : pstate,
    0 <= p_i s <= len payload -> wf_result (p_result s) ->
    (Z.to_nat (len payload - p_i s) <= fuel)%nat ->
    exists j,
      while fuel (fun s => p_i s <? len payload) (tlv_body payload) s
      = Done (mk_pstate j
                (foldl store_element (p_result s)
                   (elements_from fuel payload (p_i s)))
                (p_u32 s ++ omap u32_of (elements_from fuel payload (p_i s)))).
Proof.
  induction fuel as [| fuel IH]; intros [i result u32] Hi Hwf Hfuel;
    simpl p_i in *; simpl p_result in *; simpl p_u32 in *.
  - exists i. rewrite while_exit by (simpl; lia).
    simpl. rewrite app_nil_r. reflexivity.
  - destruct (i <? len payload) eqn:Hc.
    2:{ exists i. rewrite while_exit by exact Hc. simpl. rewrite Hc.
        simpl. rewrite app_nil_r. reflexivity. }
    apply Z.ltb_lt in Hc as Hlt.
    pose proof (tlv_body_read payload (mk_pstate i result u32)
                  ltac:(simpl; lia) Hwf) as Hbody.
    simpl elements_from. rewrite Hc. simpl p_i in Hbody.
    destruct (read_element payload i) as [[e j] |].
    + destruct Hbody as [Hbody Hj]. simpl in Hbody.
      rewrite (while_unfold_continue (fun s => p_i s <? len payload)
                 (tlv_body payload) fuel (mk_pstate i result u32) _ Hc Hbody).
      destruct (IH (mk_pstate j (store_element result e)
                      (u32 ++ option_list (u32_of e)))) as [j' Hrun].
      { simpl. lia. }
      { simpl. apply wf_result_store, Hwf. }
      { simpl. lia. }
      exists j'. rewrite Hrun. simpl. f_equal. f_equal.
      rewrite <- app_assoc. f_equal. destruct (u32_of e); reflexivity.
    + destruct Hbody as [j Hbody]. simpl in Hbody.
      rewrite (while_unfold_break (fun s => p_i s <? len payload)
                 (tlv_body payload) fuel (mk_pstate i result u32) _ Hc Hbody).
      exists j. simpl. rewrite app_nil_r. reflexivity.
Qed.

Lemma tlv_walk_elements (payload : bytes) :
  exists j, tlv_walk payload
            = Done (mk_pstate j (foldl store_element ∅ (elements payload))
                      (omap u32_of (elements payload))).
Proof.
  destruct (tlv_walk_from payload (length payload) (mk_pstate 0 ∅ []))
    as [j Hj].
  - simpl. pose proof (len_nonneg payload). lia.
  - apply wf_result_empty.
  - simpl. unfold len. lia.
  - exists j. exact Hj.
Qed.

(** ** What the walk leaves in [result] *)

Lemma foldl_store_single (key : string) (proj : element -> option (list Z)) :
  (forall (r : dict) e,
      store_element r e !! key
      = match proj e with Some v => Some (VStr v) | None => r !! key end) ->
  forall els (r : dict),
    foldl store_element r els !! key
    = match last (omap proj els) with
      | Some v => Some (VStr v)
      | None => r !! key
      end.
Proof.
  intros Hstep els. induction els as [| e els IH] using rev_ind; intros r.
  - reflexivity.
  - rewrite foldl_snoc, omap_app, last_app, Hstep, IH.
    simpl. destruct (proj e); reflexivity.
Qed.

Ltac insert_lookup :=
  rewrite ?lookup_insert_eq, ?lookup_insert_ne by done; reflexivity.

Lemma store_timestamp (r : dict) (e : element) :
  store_element r e !! "timestamp"
  = match timestamp_of e with Some v => Some (VStr v) | None => r !! "timestamp" end.
Proof.
  destruct e as [c | value | v | v |]; simpl; try reflexivity.
  - destruct (classify value); simpl; insert_lookup.
  - insert_lookup.
Qed.

Lemma store_meter_id (r : dict) (e : element) :
  store_element r e !! "meter_id"
  = match meter_id_of e with Some v => Some (VStr v) | None => r !! "meter_id" end.
Proof.
  destruct e as [c | value | v | v |]; simpl; try reflexivity.
  - destruct (classify value); simpl; insert_lookup.
  - insert_lookup.
Qed.

Lemma store_meter_model (r : dict) (e : element) :
  store_element r e !! "meter_model"
  = match meter_model_of e with Some v => Some (VStr v) | None => r !! "meter_model" end.
Proof.
  destruct e as [c | value | v | v |]; simpl; try reflexivity.
  - destruct (classify value); simpl; insert_lookup.
  - insert_lookup.
Qed.

Lemma foldl_store_list (key : string) (proj : element -> option pyval) :
  (forall (r : dict) e v,
      proj e = Some v ->
      store_element r e = <[key := VList (list_at r key ++ [v])]> r) ->
  (forall (r : dict) e,
      proj e = None -> store_element r e !! key = r !! key) ->
  forall els (r : dict),
    foldl store_element r els !! key
    = match omap proj els with
      | [] => r !! key
      | vs => Some (VList (list_at r key ++ vs))
      end.
Proof.
  intros Hsome Hnone els. induction els as [| e els IH] using rev_ind; intros r.
  - reflexivity.
  - rewrite foldl_snoc, omap_app. simpl. destruct (proj e) as [v |] eqn:Hp.
    + rewrite (Hsome _ _ _ Hp), lookup_insert_eq.
      unfold list_at at 1. rewrite IH.
      destruct (omap proj els) as [| w ws] eqn:Hom.
      * simpl. fold (list_at r key). reflexivity.
      * cbn [app]. rewrite <- app_assoc. reflexivity.
    + rewrite Hnone by exact Hp. rewrite IH, app_nil_r. reflexivity.
Qed.

Lemma omap_fmap_VStr (proj : element -> option (list Z)) (els : list element) :
  omap (fun e => VStr <$> proj e) els = VStr <$> omap proj els.
Proof.
  induction els as [| e els IH]; [reflexivity |].
  cbn. destruct (proj e); cbn; rewrite IH; reflexivity.
Qed.

Lemma omap_fmap_VInt (proj : element -> option Z) (els : list element) :
  omap (fun e => VInt <$> proj e) els = VInt <$> omap proj els.
Proof.
  induction els as [| e els IH]; [reflexivity |].
  cbn. destruct (proj e); cbn; rewrite IH; reflexivity.
Qed.

Lemma foldl_store_strings (els : list element) :
  foldl store_element ∅ els !! "strings"
  = list_value (VStr <$> omap string_of els).
Proof.
  rewrite (foldl_store_list "strings" (fun e => VStr <$> string_of e)).
  - rewrite omap_fmap_VStr. unfold list_at. rewrite lookup_empty.
    destruct (VStr <$> omap string_of els); reflexivity.
  - intros r e w He. destruct e as [c | value | v | v |]; simpl in *;
      try discriminate.
    destruct (classify value); simpl in *; try discriminate.
    injection He as <-. reflexivity.
  - intros r e He. destruct e as [c | value | v | v |]; simpl in *; try reflexivity.
    + destruct (classify value); simpl in *; try discriminate;
        rewrite ?lookup_insert_ne by done; reflexivity.
    + rewrite lookup_insert_ne by done. reflexivity.
Qed.

Lemma foldl_store_u16 (els : list element) :
  foldl store_element ∅ els !! "u16_values"
  = list_value (VInt <$> omap u16_of els).
Proof.
  rewrite (foldl_store_list "u16_values" (fun e => VInt <$> u16_of e)).
  - rewrite omap_fmap_VInt. unfold list_at. rewrite lookup_empty.
    destruct (VInt <$> omap u16_of els); reflexivity.
  - intros r e w He. destruct e as [c | value | v | v |]; simpl in *;
      try discriminate.
    injection He as <-. reflexivity.
  - intros r e He. destruct e as [c | value | v | v |]; simpl in *;
      try reflexivity; try discriminate.
    destruct (classify value); simpl in *;
      rewrite ?lookup_insert_ne by done; reflexivity.
Qed.

(** The walk writes no key but its five. *)
Lemma foldl_store_frame (key : string) (els : list element) :
  key <> "timestamp"%string -> key <> "strings"%string ->
  key <> "meter_id"%string -> key <> "meter_model"%string ->
  key <> "u16_values"%string ->
  forall r : gmap string pyval, foldl store_element r els !! key = r !! key.
Proof.
  intros H1 H2 H3 H4 H5. induction els as [| e els IH]; intros r; [reflexivity |].
  simpl. rewrite IH. destruct e as [c | value | v | v |]; simpl; try reflexivity.
  - destruct (classify value); rewrite ?lookup_insert_ne by congruence; reflexivity.
  - rewrite lookup_insert_ne by congruence. reflexivity.
Qed.

(** ** The mapping heuristics *)

Lemma find_import_total_other (u32 : list Z) (r : dict) (key : string) :
  key <> "active_import_total"%string ->
  find_import_total u32 r !! key = r !! key.
Proof.
  intros Hk. induction u32 as [| v rest IH]; simpl; [reflexivity |].
  destruct (v >? 100000); [| exact IH].
  rewrite lookup_insert_ne by congruence. reflexivity.
Qed.

Lemma find_import_total_first (pre post : list Z) (v : Z) (r : dict) :
  Forall (fun x => x <= 100000) pre -> 100000 < v ->
  find_import_total (pre ++ v :: post) r
  = <["active_import_total" := VFloat (truediv v 1000)]> r.
Proof.
  intros Hpre Hv. induction Hpre as [| x pre Hx Hpre IH]; simpl.
  - destruct (Z.gtb_spec v 100000); [reflexivity | lia].
  - destruct (Z.gtb_spec x 100000); [lia | exact IH].
Qed.

Lemma find_import_total_none (u32 : list Z) (r : dict) :
  Forall (fun x => x <= 100000) u32 -> find_import_total u32 r = r.
Proof.
  intros H. induction H as [| x u32 Hx H IH]; simpl; [reflexivity |].
  destruct (Z.gtb_spec x 100000); [lia | exact IH].
Qed.

Lemma slice_from_last (u32 : list Z) (n : Z) :
  0 < n <= len u32 ->
  slice_from u32 (- n) = drop (length u32 - Z.to_nat n) u32.
Proof.
  intros Hn. unfold slice_from, slice_bound.
  replace (- n <? 0) with true by lia.
  f_equal. unfold len in *. lia.
Qed.

Lemma list_length_9 {A : Type} (l : list A) :
  length l = 9%nat ->
  exists a0 a1 a2 a3 a4 a5 a6 a7 a8, l = [a0; a1; a2; a3; a4; a5; a6; a7; a8].
Proof.
  intros H. do 9 (destruct l as [| ? l]; [discriminate |]).
  destruct l; [| discriminate]. eauto 10.
Qed.

Lemma map_fields_eq (result : dict) (u32 : list Z) :
  exists r1 r2,
    map_fields result u32 = Done (find_import_total u32 r2)
    /\ ((u32 = [] /\ r1 = result)
        \/ exists v rest, u32 = v :: rest
                          /\ r1 = <["active_power_import" := VInt v]> result)
    /\ ((len u32 < 9 /\ r2 = r1)
        \/ (9 <= len u32 /\
            exists x y z c1 c2 c3 v1 v2 v3,
              drop (length u32 - 9) u32 = [x; y; z; c1; c2; c3; v1; v2; v3]
              /\ r2 = <["voltage_l3" := VFloat (truediv v3 10)]>
                       (<["voltage_l2" := VFloat (truediv v2 10)]>
                       (<["voltage_l1" := VFloat (truediv v1 10)]>
                       (<["current_l3" := VFloat (truediv c3 1000)]>
                       (<["current_l2" := VFloat (truediv c2 1000)]>
                       (<["current_l1" := VFloat (truediv c1 1000)]> r1))))))).
Proof.
  unfold map_fields.
  set (r1 := match u32 with
             | [] => result
             | v :: _ => <["active_power_import" := VInt v]> result
             end).
  assert (Hfirst :
    (if negb (len u32 =? 0)
     then let* v := getitem u32 0 in
          Done (<["active_power_import" := VInt v]> result)
     else Done result) = Done r1).
  { destruct u32 as [| v rest]; [reflexivity |].
    replace (len (v :: rest) =? 0) with false
      by (rewrite len_cons; pose proof (len_nonneg rest); lia).
    simpl negb. cbv iota.
    rewrite (getitem_lookup (v :: rest) 0 v); [reflexivity | lia | reflexivity]. }
  rewrite Hfirst. simpl bind.
  assert (Hr1 : (u32 = [] /\ r1 = result)
        \/ exists v rest, u32 = v :: rest
                          /\ r1 = <["active_power_import" := VInt v]> result).
  { destruct u32 as [| v rest]; [left; done | right; eauto]. }
  clearbody r1. clear Hfirst.
  destruct (Z.geb_spec (len u32) 9) as [Hge | Hlt].
  - replace (slice_from u32 (-9)) with (drop (length u32 - 9) u32)
      by (symmetry; apply (slice_from_last u32 9); lia).
    destruct (list_length_9 (drop (length u32 - 9) u32))
      as (x & y & z & c1 & c2 & c3 & v1 & v2 & v3 & Htail).
    { rewrite length_drop. unfold len in Hge. lia. }
    rewrite Htail.
    change (getitem [x; y; z; c1; c2; c3; v1; v2; v3] 3) with (Done c1).
    change (getitem [x; y; z; c1; c2; c3; v1; v2; v3] 4) with (Done c2).
    change (getitem [x; y; z; c1; c2; c3; v1; v2; v3] 5) with (Done c3).
    change (getitem [x; y; z; c1; c2; c3; v1; v2; v3] 6) with (Done v1).
    change (getitem [x; y; z; c1; c2; c3; v1; v2; v3] 7) with (Done v2).
    change (getitem [x; y; z; c1; c2; c3; v1; v2; v3] 8) with (Done v3).
    simpl bind. eexists r1, _. split; [reflexivity |].
    split; [exact Hr1 |]. right. split; [lia |].
    exists x, y, z, c1, c2, c3, v1, v2, v3. split; reflexivity.
  - simpl bind. exists r1, r1. split; [reflexivity |].
    split; [exact Hr1 |]. left. split; [lia | reflexivity].
Qed.

Lemma map_fields_total (result : dict) (u32 : list Z) :
  exists m, map_fields result u32 = Done m.
Proof. destruct (map_fields_eq result u32) as (r1 & r2 & H & _). eauto. Qed.

(** ** [parse_tlv] *)

Lemma parse_tlv_walk (payload : bytes) (s : pstate) :
  tlv_walk payload = Done s ->
  parse_tlv payload = map_fields (p_result s) (p_u32 s).
Proof. intros H. unfold parse_tlv. rewrite H. reflexivity. Qed.

Lemma tlv_walk_result (payload : bytes) (s : pstate) :
  tlv_walk payload = Done s ->
  p_result s = foldl store_element ∅ (elements payload)
  /\ p_u32 s = omap u32_of (elements payload).
Proof.
  intros H. destruct (tlv_walk_elements payload) as [j Hj].
  rewrite Hj in H. injection H as <-. split; reflexivity.
Qed.

Lemma parse_tlv_total (payload : bytes) :
  exists m, parse_tlv payload = Done m.
Proof.
  destruct (tlv_walk_elements payload) as [j Hwalk].
  rewrite (parse_tlv_walk payload _ Hwalk). apply map_fields_total.
Qed.

(** ** The values the walk converts to floats *)

Lemma int_from_bytes_big_acc (bs : bytes) :
  forall acc, 0 <= acc ->
    acc * 256 ^ len bs
    <= fold_left (fun acc b => acc * 256 + byte_val b) bs acc
    < (acc + 1) * 256 ^ len bs.
Proof.
  induction bs as [| b bs IH]; intros acc Hacc.
  - simpl. unfold len. simpl. lia.
  - simpl fold_left. rewrite len_cons.
    pose proof (len_nonneg bs) as Hn. pose proof (byte_val_range b) as Hb.
    rewrite Z.pow_add_r by lia. change (256 ^ 1) with 256.
    specialize (IH (acc * 256 + byte_val b) ltac:(lia)).
    assert (Hp : 0 < 256 ^ len bs) by (apply Z.pow_pos_nonneg; lia).
    nia.
Qed.

Lemma int_from_bytes_big_range (bs : bytes) :
  0 <= int_from_bytes_big bs < 256 ^ len bs.
Proof.
  unfold int_from_bytes_big.
  pose proof (int_from_bytes_big_acc bs 0 ltac:(lia)). lia.
Qed.

Lemma read_element_range (payload : bytes) (i j : Z) (e : element) :
  0 <= i -> read_element payload i = Some (e, j) ->
  i < j /\ forall v, u32_of e = Some v -> 0 <= v < 2 ^ 32.
Proof.
  intros Hi. unfold read_element.
  destruct (payload !! Z.to_nat i) as [b |]; [| discriminate]. cbv zeta.
  destruct (byte_val b =? 2).
  { destruct (payload !! Z.to_nat (i + 1)); [| discriminate].
    intros [= <- <-]. split; [lia | discriminate]. }
  destruct (byte_val b =? 9).
  { destruct (payload !! Z.to_nat (i + 1)) as [c |]; [| discriminate].
    pose proof (byte_val_range c).
    destruct (_ >? _); [discriminate |].
    intros [= <- <-]. split; [lia | discriminate]. }
  destruct (byte_val b =? 6).
  { destruct (Z.gtb_spec (i + 1 + 4) (len payload)); [discriminate |].
    intros [= <- <-]. split; [lia |]. intros v [= <-].
    pose proof (int_from_bytes_big_range
                  (slice payload (i + 1) (i + 1 + 4))) as Hr.
    rewrite slice_len in Hr by lia.
    replace (i + 1 + 4 - (i + 1)) with 4 in Hr by lia.
    change (256 ^ 4) with (2 ^ 32) in Hr. exact Hr. }
  destruct (byte_val b =? 16).
  { destruct (_ >? _); [discriminate |].
    intros [= <- <-]. split; [lia | discriminate]. }
  destruct ((byte_val b =? 15) || (byte_val b =? 17)); [| discriminate].
  destruct (payload !! Z.to_nat (i + 1)); [| discriminate].
  intros [= <- <-]. split; [lia | discriminate].
Qed.

Lemma elements_from_u32_range (payload : bytes) (fuel : nat) :
  forall i, 0 <= i ->
    Forall (fun v => 0 <= v < 2 ^ 32)
      (omap u32_of (elements_from fuel payload i)).
Proof.
  induction fuel as [| fuel IH]; intros i Hi; simpl; [constructor |].
  destruct (i <? len payload); [| constructor].
  destruct (read_element payload i) as [[e j] |] eqn:Hread; [| constructor].
  destruct (read_element_range payload i j e Hi Hread) as [Hj Hv].
  cbn. destruct (u32_of e) as [v |].
  - constructor; [apply Hv; reflexivity | apply IH; lia].
  - apply IH. lia.
Qed.

(** Every value that [map_fields] converts to a float was unpacked from
    four bytes: it lies in the range on which [float_of_int] is the exact
    conversion. *)
Lemma tlv_walk_u32_range (payload : bytes) (s : pstate) :
  tlv_walk payload = Done s ->
  Forall (fun v => 0 <= v < 2 ^ 32) (p_u32 s).
Proof.
  intros H. destruct (tlv_walk_result payload s H) as [_ ->].
  apply elements_from_u32_range. lia.
Qed.

(** ** Fields of the output *)

Lemma field_Done (r : run dict) (m : dict) (key : string) :
  r = Done m -> m !! key = field r key.
Proof. intros ->. reflexivity. Qed.

Lemma map_fields_power (result : dict) (u32 : list Z) (m : dict) :
  map_fields result u32 = Done m ->
  forall v rest, u32 = v :: rest -> m !! "active_power_import" = Some (VInt v).
Proof.
  intros Hm v rest Hu.
  destruct (map_fields_eq result u32) as (r1 & r2 & Heq & Hr1 & Hr2).
  rewrite Heq in Hm. injection Hm as <-.
  rewrite find_import_total_other by done.
  destruct Hr1 as [[Hnil _] | (v' & rest' & Hu' & ->)]; [congruence |].
  assert (v' = v) as -> by congruence.
  destruct Hr2 as [[_ ->] | (_ & x & y & z & c1 & c2 & c3 & v1 & v2 & v3 & _ & ->)].
  - apply lookup_insert_eq.
  - rewrite !lookup_insert_ne by done. apply lookup_insert_eq.
Qed.

Lemma map_fields_phases (result : dict) (u32 : list Z) (m : dict) :
  map_fields result u32 = Done m -> 9 <= len u32 ->
  exists x y z c1 c2 c3 v1 v2 v3,
    drop (length u32 - 9) u32 = [x; y; z; c1; c2; c3; v1; v2; v3]
    /\ m !! "current_l1" = Some (VFloat (truediv c1 1000))
    /\ m !! "current_l2" = Some (VFloat (truediv c2 1000))
    /\ m !! "current_l3" = Some (VFloat (truediv c3 1000))
    /\ m !! "voltage_l1" = Some (VFloat (truediv v1 10))
    /\ m !! "voltage_l2" = Some (VFloat (truediv v2 10))
    /\ m !! "voltage_l3" = Some (VFloat (truediv v3 10)).
Proof.
  intros Hm Hlen.
  destruct (map_fields_eq result u32) as (r1 & r2 & Heq & _ & Hr2).
  rewrite Heq in Hm. injection Hm as <-.
  destruct Hr2 as [[Hlt _] | (_ & x & y & z & c1 & c2 & c3 & v1 & v2 & v3 & Htail & ->)];
    [lia |].
  exists x, y, z, c1, c2, c3, v1, v2, v3. split; [exact Htail |].
  repeat split; rewrite find_import_total_other by done;
    rewrite ?lookup_insert_ne by done; apply lookup_insert_eq.
Qed.

Lemma map_fields_other (result : dict) (u32 : list Z) (m : dict)
    (key : string) :
  map_fields result u32 = Done m ->
  key <> "active_power_import"%string -> key <> "active_import_total"%string ->
  key <> "current_l1"%string -> key <> "current_l2"%string ->
  key <> "current_l3"%string -> key <> "voltage_l1"%string ->
  key <> "voltage_l2"%string -> key <> "voltage_l3"%string ->
  m !! key = result !! key.
Proof.
  intros Hm H1 H2 H3 H4 H5 H6 H7 H8.
  destruct (map_fields_eq result u32) as (r1 & r2 & Heq & Hr1 & Hr2).
  rewrite Heq in Hm. injection Hm as <-.
  rewrite find_import_total_other by exact H2.
  assert (Hr1' : r1 !! key = result !! key).
  { destruct Hr1 as [[_ ->] | (v & rest & _ & ->)]; [reflexivity |].
    rewrite lookup_insert_ne by congruence. reflexivity. }
  destruct Hr2 as [[_ ->] | (_ & x & y & z & c1 & c2 & c3 & v1 & v2 & v3 & _ & ->)];
    [exact Hr1' |].
  rewrite !lookup_insert_ne by congruence. exact Hr1'.
Qed.

Lemma map_fields_import_total (result : dict) (u32 : list Z) (m : dict) :
  map_fields result u32 = Done m ->
  (forall pre v post,
      u32 = pre ++ v :: post -> Forall (fun x => x <= 100000) pre ->
      100000 < v ->
      m !! "active_import_total" = Some (VFloat (truediv v 1000)))
  /\ (Forall (fun x => x <= 100000) u32 ->
      m !! "active_import_total" = result !! "active_import_total").
Proof.
  intros Hm.
  destruct (map_fields_eq result u32) as (r1 & r2 & Heq & Hr1 & Hr2).
  rewrite Heq in Hm. injection Hm as <-. split.
  - intros pre v post -> Hpre Hv.
    rewrite find_import_total_first by assumption. apply lookup_insert_eq.
  - intros Hall. rewrite find_import_total_none by exact Hall.
    assert (Hr1' : r1 !! "active_import_total" = result !! "active_import_total").
    { destruct Hr1 as [[_ ->] | (v & rest & _ & ->)]; [reflexivity |].
      rewrite lookup_insert_ne by done. reflexivity. }
    destruct Hr2 as [[_ ->] | (_ & x & y & z & c1 & c2 & c3 & v1 & v2 & v3 & _ & ->)];
      [exact Hr1' |].
    rewrite !lookup_insert_ne by done. exact Hr1'.
Qed.

(** C4.  Whenever the walk has collected a non-empty [u32_values], the
    output maps [active_power_import] to its first element as it is; and
    whenever it has collected at least nine, the output maps [current_l1],
    [current_l2], [current_l3] to the elements 3, 4, 5 of its last nine
    divided by 1000, and [voltage_l1], [voltage_l2], [voltage_l3] to the
    elements 6, 7, 8 divided by 10. *)
Theorem parse_tlv_power_and_phases (payload : bytes) (s : pstate) :
  tlv_walk payload = Done s ->
  exists m, parse_tlv payload = Done m
    /\ (forall v rest, p_u32 s = v :: rest ->
          m !! "active_power_import" = Some (VInt v))
    /\ (9 <= len (p_u32 s) ->
        exists x y z c1 c2 c3 v1 v2 v3,
          drop (length (p_u32 s) - 9) (p_u32 s)
          = [x; y; z; c1; c2; c3; v1; v2; v3]
          /\ m !! "current_l1" = Some (VFloat (truediv c1 1000))
          /\ m !! "current_l2" = Some (VFloat (truediv c2 1000))
          /\ m !! "current_l3" = Some (VFloat (truediv c3 1000))
          /\ m !! "voltage_l1" = Some (VFloat (truediv v1 10))
          /\ m !! "voltage_l2" = Some (VFloat (truediv v2 10))
          /\ m !! "voltage_l3" = Some (VFloat (truediv v3 10))).
Proof.
  intros Hwalk. rewrite (parse_tlv_walk payload s Hwalk).
  destruct (map_fields_total (p_result s) (p_u32 s)) as [m Hm].
  exists m. split; [exact Hm |]. split.
  - apply (map_fields_power _ _ _ Hm).
  - apply (map_fields_phases _ _ _ Hm).
Qed.

Lemma parse_tlv_power_and_phases_witness :
  tlv_walk sample_phases
  = Done (mk_pstate 45 ∅ [500; 1; 2; 10; 20; 30; 2300; 2310; 2320])
  /\ exists m, parse_tlv sample_phases = Done m
       /\ m !! "active_power_import" = Some (VInt 500)
       /\ m !! "current_l1" = Some (VFloat 0.01)
       /\ m !! "current_l2" = Some (VFloat 0.02)
       /\ m !! "current_l3" = Some (VFloat 0.03)
       /\ m !! "voltage_l1" = Some (VFloat 230)
       /\ m !! "voltage_l2" = Some (VFloat 231)
       /\ m !! "voltage_l3" = Some (VFloat 232).
Proof.
  assert (Hw : tlv_walk sample_phases
               = Done (mk_pstate 45 ∅ [500; 1; 2; 10; 20; 30; 2300; 2310; 2320]))
    by (vm_compute; reflexivity).
  split; [exact Hw |].
  destruct (parse_tlv_power_and_phases _ _ Hw) as (m & Hm & Hp & Hph).
  exists m. split; [exact Hm |]. split; [exact (Hp 500 _ eq_refl) |].
  destruct Hph as (x & y & z & c1 & c2 & c3 & v1 & v2 & v3 & Htail & H).
  { vm_compute. discriminate. }
  simpl in Htail.
  injection Htail as <- <- <- <- <- <- <- <- <-.
  exact H.
Defined.

(** C5.  If some element of the collected [u32_values] is greater than
    100000, the output maps [active_import_total] to the first such element
    divided by 1000; if every element is at most 100000, the output has no
    key [active_import_total]. *)
Theorem parse_tlv_import_total (payload : bytes) (s : pstate) :
  tlv_walk payload = Done s ->
  exists m, parse_tlv payload = Done m
    /\ (forall pre v post,
          p_u32 s = pre ++ v :: post ->
          Forall (fun x => x <= 100000) pre -> 100000 < v ->
          m !! "active_import_total" = Some (VFloat (truediv v 1000)))
    /\ (Forall (fun x => x <= 100000) (p_u32 s) ->
        m !! "active_import_total" = None).
Proof.
  intros Hwalk. rewrite (parse_tlv_walk payload s Hwalk).
  destruct (map_fields_total (p_result s) (p_u32 s)) as [m Hm].
  exists m. split; [exact Hm |].
  destruct (map_fields_import_total _ _ _ Hm) as [Hsome Hnone].
  split; [exact Hsome |].
  intros Hall. rewrite (Hnone Hall).
  destruct (tlv_walk_result payload s Hwalk) as [-> _].
  rewrite foldl_store_frame by done. apply lookup_empty.
Qed.

Lemma parse_tlv_import_total_witness :
  (tlv_walk sample_totals = Done (mk_pstate 15 ∅ [500; 150000; 200000])
   /\ exists m, parse_tlv sample_totals = Done m
        /\ m !! "active_import_total" = Some (VFloat 150))
  /\ (tlv_walk sample_phases
      = Done (mk_pstate 45 ∅ [500; 1; 2; 10; 20; 30; 2300; 2310; 2320])
      /\ exists m, parse_tlv sample_phases = Done m
           /\ m !! "active_import_total" = None).
Proof.
  split.
  - assert (Hw : tlv_walk sample_totals
                 = Done (mk_pstate 15 ∅ [500; 150000; 200000]))
      by (vm_compute; reflexivity).
    split; [exact Hw |].
    destruct (parse_tlv_import_total _ _ Hw) as (m & Hm & Hsome & _).
    exists m. split; [exact Hm |].
    apply (Hsome [500] 150000 [200000]); [reflexivity | | lia].
    repeat constructor. lia.
  - assert (Hw : tlv_walk sample_phases
                 = Done (mk_pstate 45 ∅
                           [500; 1; 2; 10; 20; 30; 2300; 2310; 2320]))
      by (vm_compute; reflexivity).
    split; [exact Hw |].
    destruct (parse_tlv_import_total _ _ Hw) as (m & Hm & _ & Hnone).
    exists m. split; [exact Hm |].
    apply Hnone. simpl. repeat constructor; lia.
Defined.

(** C9.  When the first element of the collected [u32_values] is greater
    than 100000, the output holds it twice: as it is under
    [active_power_import], and divided by 1000 under
    [active_import_total]. *)
Theorem parse_tlv_first_value_twice (payload : bytes) (s : pstate)
    (v : Z) (rest : list Z) :
  tlv_walk payload = Done s -> p_u32 s = v :: rest -> 100000 < v ->
  exists m, parse_tlv payload = Done m
    /\ m !! "active_power_import" = Some (VInt v)
    /\ m !! "active_import_total" = Some (VFloat (truediv v 1000)).
Proof.
  intros Hwalk Hu Hv. rewrite (parse_tlv_walk payload s Hwalk).
  destruct (map_fields_total (p_result s) (p_u32 s)) as [m Hm].
  exists m. split; [exact Hm |]. split.
  - apply (map_fields_power _ _ _ Hm v rest Hu).
  - destruct (map_fields_import_total _ _ _ Hm) as [Hsome _].
    apply (Hsome [] v rest); [exact Hu | constructor | exact Hv].
Qed.

Lemma parse_tlv_first_value_twice_witness :
  tlv_walk sample_large_first = Done (mk_pstate 5 ∅ [150000])
  /\ 100000 < 150000
  /\ exists m, parse_tlv sample_large_first = Done m
       /\ m !! "active_power_import" = Some (VInt 150000)
       /\ m !! "active_import_total" = Some (VFloat 150).
Proof.
  assert (Hw : tlv_walk sample_large_first = Done (mk_pstate 5 ∅ [150000]))
    by (vm_compute; reflexivity).
  split; [exact Hw |]. split; [lia |].
  apply (parse_tlv_first_value_twice _ _ 150000 [] Hw); [reflexivity | lia].
Defined.

(** C10.  On every payload [parse_tlv] returns, and in its output
    [timestamp], [meter_id] and [meter_model] hold the value of the last
    element of their kind that the walk met, while [strings] and
    [u16_values] hold the values of all elements of their kind in the
    order in which the walk met them (the key is unset when there is
    none). *)
Theorem parse_tlv_last_wins_lists_accumulate (payload : bytes) :
  exists m, parse_tlv payload = Done m
    /\ m !! "timestamp"
       = VStr <$> last (omap timestamp_of (elements payload))
    /\ m !! "meter_id"
       = VStr <$> last (omap meter_id_of (elements payload))
    /\ m !! "meter_model"
       = VStr <$> last (omap meter_model_of (elements payload))
    /\ m !! "strings"
       = list_value (VStr <$> omap string_of (elements payload))
    /\ m !! "u16_values"
       = list_value (VInt <$> omap u16_of (elements payload)).
Proof.
  destruct (tlv_walk_elements payload) as [j Hwalk].
  rewrite (parse_tlv_walk payload _ Hwalk). simpl p_result. simpl p_u32.
  destruct (map_fields_total (foldl store_element ∅ (elements payload))
              (omap u32_of (elements payload))) as [m Hm].
  exists m. split; [exact Hm |].
  repeat split; rewrite (map_fields_other _ _ _ _ Hm) by done.
  - rewrite (foldl_store_single _ _ store_timestamp), lookup_empty.
    destruct (last _); reflexivity.
  - rewrite (foldl_store_single _ _ store_meter_id), lookup_empty.
    destruct (last _); reflexivity.
  - rewrite (foldl_store_single _ _ store_meter_model), lookup_empty.
    destruct (last _); reflexivity.
  - apply foldl_store_strings.
  - apply foldl_store_u16.
Qed.

Lemma parse_tlv_last_wins_lists_accumulate_witness :
  exists m, parse_tlv sample_repeats = Done m
    /\ m !! "timestamp" = Some (VStr (str "2026-01-02T03:04:00"))
    /\ m !! "meter_id" = Some (VStr (str "6543210987654321"))
    /\ m !! "meter_model" = Some (VStr (str "MODEL-2 "))
    /\ m !! "strings"
       = Some (VList [VStr (str "ABCDEFG"); VStr (str "HIJKLMN")])
    /\ m !! "u16_values" = Some (VList [VInt 258; VInt 259]).
Proof.
  destruct (parse_tlv_last_wins_lists_accumulate sample_repeats)
    as (m & Hm & Hts & Hid & Hmodel & Hstrings & Hu16).
  exists m. split; [exact Hm |].
  rewrite Hts, Hid, Hmodel, Hstrings, Hu16.
  split; [vm_compute; reflexivity |]. split; [vm_compute; reflexivity |].
  split; [vm_compute; reflexivity |]. split; vm_compute; reflexivity.
Defined.

(** ** States the walk passes through *)

Lemma bytes_getitem_Done (data : bytes) (j v : Z) :
  0 <= j -> bytes_getitem data j = Done v ->
  j < len data /\ exists b, data !! Z.to_nat j = Some b /\ v = byte_val b.
Proof.
  intros Hj H. destruct (Z.lt_ge_cases j (len data)) as [Hlt | Hge].
  - split; [exact Hlt |].
    destruct (bytes_getitem_in_range data j ltac:(lia)) as (b & Hb & Hg).
    exists b. split; [exact Hb | congruence].
  - exfalso. unfold bytes_getitem, getitem in H. cbv zeta in H.
    replace (j <? 0) with false in H by lia. cbv iota in H.
    replace (j <? 0) with false in H by lia.
    replace (len data <=? j) with true in H by lia.
    discriminate.
Qed.

Lemma halts_read_element (payload : bytes) (i : Z) :
  halts_at payload i -> read_element payload i = None.
Proof.
  intros (Hi & tag & Htag & Hcase).
  apply bytes_getitem_Done in Htag as (_ & b & Hb & ->); [| lia].
  unfold read_element. rewrite Hb. cbv zeta.
  destruct Hcase as [(H2 & H9 & H6 & H10 & Hf & H11)
                    | [(-> & Hlen) | [(-> & length & Hl & Hlen)
                    | [(-> & Hlen) | [(-> & Hlen)
                    | [(Ht & Hlen) | (-> & Hlen)]]]]]].
  - apply Z.eqb_neq in H2, H9, H6, H10, Hf, H11.
    rewrite H2, H9, H6, H10, Hf, H11. reflexivity.
  - simpl. rewrite (proj2 (lookup_None_len payload (i + 1) ltac:(lia))) by lia.
    reflexivity.
  - simpl. apply bytes_getitem_Done in Hl as (_ & c & Hc & ->); [| lia].
    rewrite Hc. destruct (Z.gtb_spec (i + 1 + 1 + byte_val c) (len payload));
      [reflexivity | lia].
  - simpl. destruct (Z.gtb_spec (i + 1 + 4) (len payload)); [reflexivity | lia].
  - simpl. destruct (Z.gtb_spec (i + 1 + 2) (len payload)); [reflexivity | lia].
  - rewrite (proj2 (lookup_None_len payload (i + 1) ltac:(lia))) by lia.
    destruct Ht as [-> | ->]; reflexivity.
  - simpl. rewrite (proj2 (lookup_None_len payload (i + 1) ltac:(lia))) by lia.
    reflexivity.
Qed.

Lemma reach_inv (payload : bytes) (s : pstate) :
  reach payload s -> 0 <= p_i s <= len payload /\ wf_result (p_result s).
Proof.
  induction 1 as [| s s' Hreach [Hi Hwf] Hc Hbody].
  - simpl. split; [pose proof (len_nonneg payload); lia | apply wf_result_empty].
  - apply Z.ltb_lt in Hc.
    pose proof (tlv_body_read payload s ltac:(lia) Hwf) as Hread.
    destruct (read_element payload (p_i s)) as [[e j] |].
    + destruct Hread as [Heq Hj]. rewrite Heq in Hbody.
      injection Hbody as <-. simpl. split; [lia | apply wf_result_store, Hwf].
    + destruct Hread as [j Heq]. rewrite Heq in Hbody. discriminate.
Qed.

(** Whatever the loop returns when started in a state the walk passes
    through is what the walk returns. *)
Lemma reach_walk (payload : bytes) (s : pstate) :
  reach payload s ->
  forall fuel r,
    while fuel (fun s => p_i s <? len payload) (tlv_body payload) s = Done r ->
    tlv_walk payload = Done r.
Proof.
  induction 1 as [| s s' Hreach IH Hc Hbody]; intros fuel r Hrun.
  - destruct (tlv_walk_elements payload) as [j Hj].
    unfold tlv_walk in *.
    apply (while_fuel_mono _ _ _ _ _ (Nat.max fuel (length payload))) in Hrun;
      [| lia].
    apply (while_fuel_mono _ _ _ _ _ (Nat.max fuel (length payload))) in Hj as Hj';
      [| lia].
    rewrite Hj. congruence.
  - apply (IH (S fuel)).
    rewrite (while_unfold_continue (fun s => p_i s <? len payload)
               (tlv_body payload) fuel s s' Hc Hbody).
    exact Hrun.
Qed.

(** C6.  When the walk comes to a cursor at which the tag is not one of
    0x02, 0x09, 0x06, 0x10, 0x0F, 0x11, or at which a recognized tag
    declares more data than the buffer has left, it stops there with what it
    has accumulated, and [parse_tlv] returns the fields mapped from that:
    a partial result and no exception. *)
Theorem parse_tlv_halt_keeps_fields (payload : bytes) (s : pstate) :
  reach payload s -> halts_at payload (p_i s) ->
  exists j m,
    tlv_walk payload = Done (mk_pstate j (p_result s) (p_u32 s))
    /\ map_fields (p_result s) (p_u32 s) = Done m
    /\ parse_tlv payload = Done m.
Proof.
  intros Hreach Hhalt.
  destruct (reach_inv payload s Hreach) as [Hi Hwf].
  pose proof Hhalt as [Hlt _].
  pose proof (tlv_body_read payload s Hlt Hwf) as Hread.
  rewrite (halts_read_element payload (p_i s) Hhalt) in Hread.
  destruct Hread as [j Hbreak].
  assert (Hwalk : tlv_walk payload
                  = Done (mk_pstate j (p_result s) (p_u32 s))).
  { apply (reach_walk payload s Hreach 1).
    apply while_unfold_break; [lia | exact Hbreak]. }
  destruct (map_fields_total (p_result s) (p_u32 s)) as [m Hm].
  exists j, m. split; [exact Hwalk |]. split; [exact Hm |].
  rewrite (parse_tlv_walk payload _ Hwalk). exact Hm.
Qed.

Lemma parse_tlv_halt_keeps_fields_witness :
  reach sample_truncated sample_truncated_state
  /\ halts_at sample_truncated (p_i sample_truncated_state)
  /\ exists m, parse_tlv sample_truncated = Done m
       /\ m !! "active_power_import" = Some (VInt 500)
       /\ m !! "u16_values" = Some (VList [VInt 258]).
Proof.
  assert (Hreach : reach sample_truncated sample_truncated_state).
  { apply (reach_turn _ (mk_pstate 7 ∅ [500]));
      [| reflexivity | vm_compute; reflexivity].
    apply (reach_turn _ (mk_pstate 2 ∅ []));
      [| reflexivity | vm_compute; reflexivity].
    apply (reach_turn _ (mk_pstate 0 ∅ []));
      [| reflexivity | vm_compute; reflexivity].
    apply reach_start. }
  assert (Hhalt : halts_at sample_truncated (p_i sample_truncated_state)).
  { split; [vm_compute; split; [discriminate | reflexivity] |].
    exists 9. split; [reflexivity |].
    right. right. left. split; [reflexivity |].
    exists 7. split; [reflexivity | vm_compute; reflexivity]. }
  split; [exact Hreach |]. split; [exact Hhalt |].
  destruct (parse_tlv_halt_keeps_fields _ _ Hreach Hhalt) as (j & m & _ & Hm & Hp).
  exists m. split; [exact Hp |]. split.
  - apply (map_fields_power _ _ _ Hm 500 []). reflexivity.
  - rewrite (map_fields_other _ _ _ _ Hm) by done. apply lookup_insert_eq.
Defined.

(** The example of the specification: the primary anchor with a first octet
    string that declares more than is left gives the empty mapping. *)
Example parse_tlv_anchor_cut : parse_tlv sample_anchor_cut = Done ∅.
Proof. vm_compute. reflexivity. Qed.

(** ** [str.strip] *)

Lemma str_lstrip_spec (chars s : list Z) :
  exists front,
    s = front ++ str_lstrip chars s
    /\ Forall (fun c => in_chars chars c = true) front
    /\ (forall c rest, str_lstrip chars s = c :: rest ->
                       in_chars chars c = false).
Proof.
  induction s as [| c s IH].
  - exists []. simpl. repeat split; [constructor | discriminate].
  - simpl. destruct (in_chars chars c) eqn:Hc.
    + destruct IH as (front & Hs & Hfront & Hhead).
      exists (c :: front). simpl. repeat split.
      * congruence.
      * constructor; assumption.
      * exact Hhead.
    + exists []. simpl. repeat split; [constructor |].
      intros c' rest [= <- _]. exact Hc.
Qed.

Lemma str_strip_spec (chars s : list Z) :
  exists front back,
    s = front ++ str_strip chars s ++ back
    /\ Forall (fun c => in_chars chars c = true) front
    /\ Forall (fun c => in_chars chars c = true) back
    /\ (forall c rest, str_strip chars s = c :: rest ->
                       in_chars chars c = false)
    /\ (forall c init, str_strip chars s = init ++ [c] ->
                       in_chars chars c = false).
Proof.
  unfold str_strip, str_rstrip.
  destruct (str_lstrip_spec chars s) as (front & Hs & Hfront & Hhead).
  set (t := str_lstrip chars s) in *.
  destruct (str_lstrip_spec chars (rev t)) as (kcab & Ht & Hkcab & Hlast).
  set (u := str_lstrip chars (rev t)) in *.
  assert (Ht' : t = rev u ++ rev kcab).
  { rewrite <- rev_app_distr, <- Ht, rev_involutive. reflexivity. }
  exists front, (rev kcab). repeat split.
  - rewrite <- Ht'. exact Hs.
  - exact Hfront.
  - apply Forall_rev. exact Hkcab.
  - intros c rest Hc. rewrite Hc in Ht'. apply (Hhead c (rest ++ rev kcab)).
    rewrite Ht'. reflexivity.
  - intros c init Hc. apply (Hlast c (rev init)).
    apply (f_equal (@rev Z)) in Hc.
    rewrite rev_involutive, rev_app_distr in Hc. exact Hc.
Qed.

Lemma in_chars_nul (c : Z) : in_chars [0] c = true <-> c = 0.
Proof.
  unfold in_chars. simpl. rewrite orb_false_r. apply Z.eqb_eq.
Qed.

(** A value that is not twelve bytes long is no timestamp. *)
Lemma _safe_parse_timestamp_length (value : bytes) :
  len value <> 12 -> _safe_parse_timestamp value = Done None.
Proof.
  intros H. unfold _safe_parse_timestamp.
  apply Z.eqb_neq in H. rewrite H. reflexivity.
Qed.

(** C8, as the code has it.  For every octet string of length 16 that the
    walk reads, the turn of the loop stores under [meter_id] the bytes
    decoded as text with the NUL characters removed at both ends, the
    leading ones as well as the trailing ones; what lies between the first
    and the last character other than NUL is kept as it is. *)
Theorem meter_id_strips_nul_at_both_ends (payload : bytes) (s : pstate)
    (value : bytes) (j : Z) :
  reach payload s ->
  read_element payload (p_i s) = Some (OctetString value, j) ->
  len value = 16 ->
  exists stripped front back,
    tlv_body payload s
    = Done (Continue (mk_pstate j (<["meter_id" := VStr stripped]> (p_result s))
                        (p_u32 s)))
    /\ bytes_decode_ignore value = front ++ stripped ++ back
    /\ Forall (fun c => c = 0) front
    /\ Forall (fun c => c = 0) back
    /\ head stripped <> Some 0
    /\ last stripped <> Some 0.
Proof.
  intros Hreach Hread Hlen.
  destruct (reach_inv payload s Hreach) as [Hi Hwf].
  assert (Hlt : p_i s < len payload).
  { unfold read_element in Hread.
    destruct (payload !! Z.to_nat (p_i s)) eqn:Hb; [| discriminate].
    apply lookup_lt_Some in Hb. unfold len. lia. }
  pose proof (tlv_body_read payload s ltac:(lia) Hwf) as Hbody.
  rewrite Hread in Hbody. destruct Hbody as [Hbody _].
  assert (Hcls : classify value
                 = KMeterId (str_strip [0] (bytes_decode_ignore value))).
  { unfold classify. rewrite _safe_parse_timestamp_length by lia.
    rewrite Hlen. reflexivity. }
  simpl in Hbody. rewrite Hcls, app_nil_r in Hbody.
  destruct (str_strip_spec [0] (bytes_decode_ignore value))
    as (front & back & Hsplit & Hfront & Hback & Hhead & Hlast).
  exists (str_strip [0] (bytes_decode_ignore value)), front, back.
  split; [exact Hbody |]. split; [exact Hsplit |].
  split; [| split; [| split]].
  - eapply Forall_impl; [exact Hfront |]. intros c. apply in_chars_nul.
  - eapply Forall_impl; [exact Hback |]. intros c. apply in_chars_nul.
  - destruct (str_strip [0] (bytes_decode_ignore value)) as [| c rest] eqn:E;
      [discriminate |].
    simpl. intros [= ->]. specialize (Hhead 0 rest eq_refl). discriminate.
  - intros Hl. apply last_Some in Hl as [init Hl].
    specialize (Hlast 0 init Hl). discriminate.
Qed.

Lemma meter_id_strips_nul_at_both_ends_witness :
  reach sample_meter_id (mk_pstate 0 ∅ [])
  /\ read_element sample_meter_id 0 = Some (OctetString sample_meter_value, 18)
  /\ len sample_meter_value = 16
  /\ exists stripped front back,
       tlv_body sample_meter_id (mk_pstate 0 ∅ [])
       = Done (Continue (mk_pstate 18 (<["meter_id" := VStr stripped]> ∅) []))
       /\ bytes_decode_ignore sample_meter_value = front ++ stripped ++ back
       /\ Forall (fun c => c = 0) front
       /\ Forall (fun c => c = 0) back
       /\ head stripped <> Some 0
       /\ last stripped <> Some 0.
Proof.
  split; [apply reach_start |]. split; [reflexivity |].
  split; [reflexivity |].
  apply (meter_id_strips_nul_at_both_ends sample_meter_id
           (mk_pstate 0 ∅ []) sample_meter_value 18);
    [apply reach_start | reflexivity | reflexivity].
Defined.

(** C8, as it is stated, fails: of 00 00 "METER-1" 00 ... 00 the walk keeps
    "METER-1", while removing the trailing padding alone would keep the two
    leading NUL characters. *)
Lemma meter_id_leading_nul_removed :
  exists m, parse_tlv sample_meter_id = Done m
    /\ m !! "meter_id" = Some (VStr (str "METER-1"))
    /\ str_rstrip [0] (bytes_decode_ignore sample_meter_value)
       = 0 :: 0 :: str "METER-1"
    /\ m !! "meter_id"
       <> Some (VStr (str_rstrip [0] (bytes_decode_ignore sample_meter_value))).
Proof.
  destruct (parse_tlv_total sample_meter_id) as [m Hm].
  exists m. split; [exact Hm |].
  rewrite !(field_Done _ _ _ Hm).
  split; [vm_compute; reflexivity |].
  split; [vm_compute; reflexivity |].
  vm_compute. discriminate.
Qed.

(** ** [decode_tibber_pulse_message] *)

Lemma is_prefix_spec (sub data : bytes) :
  is_prefix sub data = true <-> sub `prefix_of` data.
Proof.
  revert data. induction sub as [| a sub IH]; intros data; simpl.
  - split; [intros _; apply prefix_nil | reflexivity].
  - destruct data as [| b data].
    + split; [discriminate |]. intros H. apply prefix_nil_inv in H. discriminate.
    + rewrite andb_true_iff, IH. split.
      * intros [Hab Hp]. apply Byte.byte_dec_bl in Hab as ->.
        apply prefix_cons, Hp.
      * intros H. apply prefix_cons_inv_1 in H as Hab.
        apply prefix_cons_inv_2 in H. subst.
        split; [apply Byte.byte_dec_lb; reflexivity | exact H].
Qed.

Lemma find_from_spec (sub data : bytes) :
  forall k,
    (find_from sub data k = -1
     /\ forall j, (j <= length data)%nat -> ~ sub `prefix_of` drop j data)
    \/ (exists j, find_from sub data k = k + Z.of_nat j
                  /\ first_occurrence sub data j).
Proof.
  induction data as [| b data IH]; intros k; simpl.
  - destruct (is_prefix sub []) eqn:Hp.
    + right. exists 0%nat. split; [lia |].
      split; [simpl; lia |]. split; [apply is_prefix_spec, Hp |]. lia.
    + left. split; [reflexivity |]. intros j Hj.
      rewrite drop_nil, <- is_prefix_spec, Hp. discriminate.
  - destruct (is_prefix sub (b :: data)) eqn:Hp.
    + right. exists 0%nat. split; [lia |].
      split; [simpl; lia |]. split; [apply is_prefix_spec, Hp |]. lia.
    + destruct (IH (k + 1)) as [[Hnone Hall] | (j & Hj & Hfirst)].
      * left. split; [exact Hnone |]. intros [| j] Hj.
        -- simpl. rewrite <- is_prefix_spec, Hp. discriminate.
        -- simpl. apply Hall. simpl in Hj. lia.
      * right. exists (S j). split; [lia |].
        destruct Hfirst as (Hlen & Hpre & Hmin).
        split; [simpl; lia |]. split; [exact Hpre |].
        intros [| j'] Hj'.
        -- simpl. rewrite <- is_prefix_spec, Hp. discriminate.
        -- simpl. apply Hmin. lia.
Qed.

Lemma first_occurrence_unique (anchor data : bytes) (j k : nat) :
  first_occurrence anchor data j -> first_occurrence anchor data k -> j = k.
Proof.
  intros (_ & Hj & Hminj) (_ & Hk & Hmink).
  destruct (Nat.lt_trichotomy j k) as [Hlt | [Heq | Hgt]]; [| exact Heq |].
  - exfalso. exact (Hmink j Hlt Hj).
  - exfalso. exact (Hminj k Hgt Hk).
Qed.

Lemma truthy_dict_spec (d : dict) :
  truthy_dict d = true <-> d <> ∅.
Proof.
  unfold truthy_dict. rewrite negb_true_iff, Nat.eqb_neq.
  rewrite <- map_size_empty_iff. reflexivity.
Qed.

(** One attempt either returns the non-empty fields parsed at the first
    occurrence of the anchor, or falls through. *)
Lemma attempt_spec (data anchor : bytes) :
  (exists m, yields anchor data m /\ attempt data anchor = Done (Some m))
  \/ ((~ exists m, yields anchor data m) /\ attempt data anchor = Done None).
Proof.
  unfold attempt, bytes_find. cbv zeta.
  destruct (find_from_spec anchor data 0) as [[Hnone Hall] | (j & Hj & Hfirst)].
  - right. split.
    + intros (m & k & (Hlen & Hpre & _) & _). exact (Hall k Hlen Hpre).
    + rewrite Hnone. reflexivity.
  - rewrite Hj.
    replace (0 + Z.of_nat j =? -1) with false by lia. simpl negb. cbv iota.
    replace (0 + Z.of_nat j) with (Z.of_nat j) by lia.
    pose proof Hfirst as (Hlen & _).
    rewrite (slice_from_drop data j Hlen).
    destruct (parse_tlv_total (drop j data)) as [m Hm].
    rewrite Hm. simpl bind.
    destruct (truthy_dict m) eqn:Ht.
    + left. exists m. split; [| reflexivity].
      exists j. split; [exact Hfirst |]. split; [exact Hm |].
      apply truthy_dict_spec, Ht.
    + right. split; [| reflexivity].
      intros (m' & k & Hk & Hm' & Hne).
      rewrite (first_occurrence_unique _ _ _ _ Hk Hfirst) in Hm'.
      assert (m' = m) as -> by congruence.
      apply truthy_dict_spec in Hne. congruence.
Qed.

(** On a payload that is not empty the function unescapes and makes its two
    attempts in turn. *)
Lemma decode_unfold (payload : bytes) :
  payload <> [] ->
  exists data,
    unescape_hdlc payload = Done data
    /\ decode_tibber_pulse_message payload
       = (let* r := attempt data primary_anchor in
          match r with
          | Some decoded => Done decoded
          | None =>
              let* r := attempt data fallback_anchor in
              match r with
              | Some decoded => Done decoded
              | None => Done ∅
              end
          end).
Proof.
  intros Hne. destruct payload as [| b payload]; [congruence |].
  destruct (unescape_hdlc_refines (b :: payload)) as (data & Hdata & _).
  exists data. split; [exact Hdata |].
  unfold decode_tibber_pulse_message.
  replace (len (b :: payload) =? 0) with false
    by (rewrite len_cons; pose proof (len_nonneg payload); lia).
  rewrite Hdata. reflexivity.
Qed.

(** C1.  On every byte sequence [decode_tibber_pulse_message] returns a
    mapping: the loops end within the fuel they are given and no operation
    raises. *)
Theorem decode_total (payload : bytes) :
  exists m, decode_tibber_pulse_message payload = Done m.
Proof.
  destruct payload as [| b payload]; [exists ∅; reflexivity |].
  destruct (decode_unfold (b :: payload)) as (data & _ & ->); [discriminate |].
  destruct (attempt_spec data primary_anchor) as [(m & _ & ->) | [_ ->]];
    simpl bind; [eauto |].
  destruct (attempt_spec data fallback_anchor) as [(m & _ & ->) | [_ ->]];
    simpl bind; eauto.
Qed.

(** C3.  On the empty payload the result is the empty mapping.  Otherwise
    the payload is unescaped; if the primary anchor 02 0D 09 07 occurs and
    parsing from its first occurrence gives fields, they are the result;
    if not, and the fallback anchor 09 0C 07 occurs and parsing from its
    first occurrence gives fields, they are the result; if neither attempt
    gives fields the result is the empty mapping. *)
Theorem decode_algorithm (payload : bytes) :
  (payload = [] /\ decode_tibber_pulse_message payload = Done ∅)
  \/ (payload <> [] /\
      exists data,
        unescape_hdlc payload = Done data
        /\ ((exists m, yields primary_anchor data m
                       /\ decode_tibber_pulse_message payload = Done m)
            \/ ((~ exists m, yields primary_anchor data m)
                /\ exists m, yields fallback_anchor data m
                             /\ decode_tibber_pulse_message payload = Done m)
            \/ ((~ exists m, yields primary_anchor data m)
                /\ (~ exists m, yields fallback_anchor data m)
                /\ decode_tibber_pulse_message payload = Done ∅))).
Proof.
  destruct payload as [| b payload]; [left; split; reflexivity |].
  right. split; [discriminate |].
  destruct (decode_unfold (b :: payload)) as (data & Hdata & ->);
    [discriminate |].
  exists data. split; [exact Hdata |].
  destruct (attempt_spec data primary_anchor) as [(m & Hy & ->) | [Hn ->]].
  - left. exists m. split; [exact Hy | reflexivity].
  - right. simpl bind.
    destruct (attempt_spec data fallback_anchor) as [(m & Hy & ->) | [Hn' ->]].
    + left. split; [exact Hn |]. exists m. split; [exact Hy | reflexivity].
    + right. split; [exact Hn |]. split; [exact Hn' | reflexivity].
Qed.

Lemma decode_algorithm_witness :
  sample_frame <> []
  /\ exists data m,
       unescape_hdlc sample_frame = Done data
       /\ yields primary_anchor data m
       /\ decode_tibber_pulse_message sample_frame = Done m
       /\ m !! "active_power_import" = Some (VInt 500)
       /\ m !! "strings" = Some (VList [VStr (str "ABCDEFG")]).
Proof.
  split; [discriminate |].
  destruct (decode_algorithm sample_frame)
    as [[He _] | (_ & data & Hd & Hcases)]; [discriminate |].
  assert (Hy : exists m, yields primary_anchor data m).
  { vm_compute in Hd. injection Hd as <-.
    match goal with
    | |- exists m, yields _ ?d m =>
        destruct (parse_tlv_total (drop 1 d)) as [m0 Hm0]
    end.
    exists m0, 1%nat. split; [| split].
    - split; [simpl; lia |]. split.
      + eexists. reflexivity.
      + intros j Hj. assert (j = 0%nat) as -> by lia.
        intros [k Hk]. discriminate Hk.
    - exact Hm0.
    - intros ->.
      pose proof (field_Done _ _ "active_power_import" Hm0) as Hf.
      rewrite lookup_empty in Hf. vm_compute in Hf. discriminate Hf. }
  destruct Hcases as [(m & Hm & Hdec) | [(Hn & _) | (Hn & _)]];
    [| exfalso; exact (Hn Hy) | exfalso; exact (Hn Hy)].
  exists data, m. split; [exact Hd |]. split; [exact Hm |].
  split; [exact Hdec |].
  rewrite !(field_Done _ _ _ Hdec).
  split; vm_compute; reflexivity.
Defined.

(** The primary anchor is found but gives no fields; the fallback anchor
    gives the timestamp. *)
Example decode_fallback :
  field (decode_tibber_pulse_message sample_fallback) "timestamp"
  = Some (VStr (str "2025-11-21T10:30:00")).
Proof. vm_compute. reflexivity. Qed.

Example decode_noise :
  decode_tibber_pulse_message [x7e; xa0; x13; xff; x7d] = Done ∅.
Proof. vm_compute. reflexivity. Qed.

(** C2, on the code.  The twelve bytes 07 E9 0B 15 01 00 0A 1E 00 00 00 00
    give no timestamp: the function takes the year from offsets 1 and 2,
    E9 0B, which is 59659 and fails the guard on the year; an element
    carrying them leaves [timestamp] unset.  With 00 01 as year bytes there
    is no timestamp either.  The bytes that the function does read as
    2025-11-21T10:30:00 are 07 07 E9 0B 15 00 0A 1E 00 00 00 00. *)
Theorem timestamp_sample_rejected :
  _safe_parse_timestamp sample_timestamp = Done None
  /\ int_from_bytes_big (slice sample_timestamp 1 3) = 59659
  /\ parse_tlv ([x09; x0c] ++ sample_timestamp) = Done ∅
  /\ _safe_parse_timestamp sample_timestamp_year1 = Done None
  /\ _safe_parse_timestamp sample_timestamp_year1_head = Done None
  /\ _safe_parse_timestamp sample_timestamp_shifted
     = Done (Some (str "2025-11-21T10:30:00")).
Proof.
  split; [vm_compute; reflexivity |]. split; [vm_compute; reflexivity |].
  split; [vm_compute; reflexivity |]. split; [vm_compute; reflexivity |].
  split; vm_compute; reflexivity.
Qed.

(** * Further properties *)

(** ** [crc16_xmodem] *)

Lemma lxor_below (n a b : Z) :
  0 <= n -> 0 <= a < 2 ^ n -> 0 <= b < 2 ^ n -> 0 <= Z.lxor a b < 2 ^ n.
Proof.
  intros Hn Ha Hb.
  assert (Hnn : 0 <= Z.lxor a b) by (apply Z.lxor_nonneg; lia).
  split; [exact Hnn |].
  destruct (Z.eq_dec (Z.lxor a b) 0) as [-> | Hne]; [lia |].
  apply Z.log2_lt_pow2; [lia |].
  pose proof (Z.log2_lxor a b ltac:(lia) ltac:(lia)) as Hl.
  assert (Hla : a = 0 \/ Z.log2 a < n).
  { destruct (Z.eq_dec a 0); [left; assumption | right].
    apply Z.log2_lt_pow2; lia. }
  assert (Hlb : b = 0 \/ Z.log2 b < n).
  { destruct (Z.eq_dec b 0); [left; assumption | right].
    apply Z.log2_lt_pow2; lia. }
  destruct Hla as [-> | Hla], Hlb as [-> | Hlb].
  - rewrite Z.lxor_0_l in Hne. congruence.
  - rewrite Z.lxor_0_l. exact Hlb.
  - rewrite Z.lxor_0_r. exact Hla.
  - lia.
Qed.

Lemma land_mask_range (x m : Z) : 0 <= m -> 0 <= Z.land x m <= m.
Proof.
  intros Hm. split; [apply Z.land_nonneg; right; exact Hm |].
  assert (Hsum : Z.ldiff m x + Z.land m x = m).
  { rewrite Z.add_nocarry_lor; [apply Z.lor_ldiff_and |].
    rewrite (Z.land_comm m x), Z.land_assoc, Z.land_ldiff. reflexivity. }
  assert (0 <= Z.ldiff m x) by (apply Z.ldiff_nonneg; left; exact Hm).
  rewrite Z.land_comm. lia.
Qed.

Lemma crctab_hqx_range (i : nat) : 0 <= nth i crctab_hqx 0 < 65536.
Proof.
  destruct (Nat.lt_ge_cases i (length crctab_hqx)) as [Hlt | Hge].
  - assert (Hall : Forall (fun v => 0 <= v < 65536) crctab_hqx).
    { apply Forall_forall. intros v Hv.
      assert (Hb : forallb (fun v => (0 <=? v) && (v <? 65536)) crctab_hqx
                   = true) by (vm_compute; reflexivity).
      rewrite forallb_forall in Hb. apply list_elem_of_In in Hv.
      specialize (Hb v Hv). lia. }
    rewrite Forall_forall in Hall. apply Hall.
    apply list_elem_of_In, nth_In, Hlt.
  - rewrite nth_overflow by exact Hge. lia.
Qed.

Lemma crc_hqx_step_range (crc : Z) (b : byte) :
  0 <= crc_hqx_step crc b < 65536.
Proof.
  unfold crc_hqx_step. apply (lxor_below 16); [lia | |].
  - pose proof (land_mask_range (Z.shiftl crc 8) 0xff00 ltac:(lia)). lia.
  - apply crctab_hqx_range.
Qed.

Lemma crc_hqx_range (data : list byte) (value : Z) :
  0 <= crc_hqx data value < 65536.
Proof.
  unfold crc_hqx.
  assert (Hinit : 0 <= Z.land value 0xffff < 65536).
  { pose proof (land_mask_range value 0xffff ltac:(lia)). lia. }
  revert Hinit. generalize (Z.land value 0xffff).
  induction data as [| b data IH]; intros c Hc; simpl; [exact Hc |].
  apply IH, crc_hqx_step_range.
Qed.

(** The sum fits sixteen bits, whatever the data. *)
Lemma crc16_xmodem_range (data : list byte) :
  0 <= crc16_xmodem data < 65536.
Proof. apply crc_hqx_range. Qed.

Lemma crc_hqx_step_high (c : Z) (hi : byte) :
  0 <= c < 65536 -> byte_val hi = c / 256 ->
  crc_hqx_step c hi = Z.shiftl (c mod 256) 8.
Proof.
  intros Hc Hhi. unfold crc_hqx_step.
  rewrite Hhi, Z.shiftr_div_pow2 by lia. change (2 ^ 8) with 256.
  rewrite Z.lxor_nilpotent. change (nth (Z.to_nat 0) crctab_hqx 0) with 0.
  rewrite Z.lxor_0_r.
  change 0xff00 with (Z.shiftl 255 8).
  rewrite <- Z.shiftl_land. change 255 with (Z.ones 8).
  rewrite Z.land_ones by lia. reflexivity.
Qed.

Lemma crc_hqx_step_low (l : Z) (lo : byte) :
  0 <= l < 256 -> byte_val lo = l ->
  crc_hqx_step (Z.shiftl l 8) lo = 0.
Proof.
  intros Hl Hlo. unfold crc_hqx_step.
  rewrite Hlo, Z.shiftr_shiftl_l by lia. change (8 - 8) with 0.
  rewrite Z.shiftl_0_r, Z.lxor_nilpotent.
  change (nth (Z.to_nat 0) crctab_hqx 0) with 0. rewrite Z.lxor_0_r.
  rewrite Z.shiftl_shiftl by lia. change (8 + 8) with 16.
  change 0xff00 with (Z.land (Z.ones 16) 0xff00).
  rewrite Z.land_assoc, Z.land_ones by lia.
  rewrite Z.shiftl_mul_pow2 by lia. rewrite Z.mod_mul by lia. reflexivity.
Qed.

(** X2.  A message followed by its own checksum, high byte first, sums to
    zero; the two bytes exist because the checksum fits sixteen bits. *)
Theorem crc16_xmodem_residue (data : list byte) :
  exists hi lo,
    byte_val hi = crc16_xmodem data / 256
    /\ byte_val lo = crc16_xmodem data mod 256
    /\ crc16_xmodem (data ++ [hi; lo]) = 0.
Proof.
  pose proof (crc16_xmodem_range data) as Hr.
  destruct (byte_of_int_in_range (crc16_xmodem data / 256)) as (hi & _ & Hhi).
  { split; [apply Z.div_pos; lia | apply Z.div_lt_upper_bound; lia]. }
  destruct (byte_of_int_in_range (crc16_xmodem data mod 256)) as (lo & _ & Hlo).
  { apply Z.mod_pos_bound. lia. }
  exists hi, lo. split; [exact Hhi |]. split; [exact Hlo |].
  unfold crc16_xmodem, crc_hqx in *. rewrite fold_left_app. simpl.
  rewrite (crc_hqx_step_high _ hi Hr Hhi).
  apply crc_hqx_step_low; [apply Z.mod_pos_bound; lia | exact Hlo].
Qed.

(** X4.  Zero bytes in front of a message do not change its checksum: with
    the initial value 0 the register stays 0 until the first byte that is
    not zero. *)
Theorem crc16_xmodem_leading_zeros (n : nat) (data : list byte) :
  crc16_xmodem (replicate n x00 ++ data) = crc16_xmodem data.
Proof.
  unfold crc16_xmodem, crc_hqx. rewrite fold_left_app. f_equal.
  induction n as [| n IH]; simpl; [reflexivity |].
  change (crc_hqx_step (Z.land 0 65535) "000") with (Z.land 0 65535).
  exact IH.
Qed.

Lemma lxor_swap (a b c d : Z) :
  Z.lxor (Z.lxor a b) (Z.lxor c d) = Z.lxor (Z.lxor a c) (Z.lxor b d).
Proof.
  apply Z.bits_inj'. intros n Hn. rewrite !Z.lxor_spec.
  destruct (Z.testbit a n), (Z.testbit b n), (Z.testbit c n), (Z.testbit d n);
    reflexivity.
Qed.

Lemma land_lxor_mask (a b m : Z) :
  Z.land (Z.lxor a b) m = Z.lxor (Z.land a m) (Z.land b m).
Proof.
  apply Z.bits_inj'. intros n Hn.
  rewrite !Z.lxor_spec, !Z.land_spec, !Z.lxor_spec.
  destruct (Z.testbit a n), (Z.testbit b n), (Z.testbit m n); reflexivity.
Qed.

Lemma crctab_hqx_lxor (i j : Z) :
  0 <= i < 256 -> 0 <= j < 256 ->
  nth (Z.to_nat (Z.lxor i j)) crctab_hqx 0
  = Z.lxor (nth (Z.to_nat i) crctab_hqx 0) (nth (Z.to_nat j) crctab_hqx 0).
Proof.
  intros Hi Hj.
  assert (Hall :
    forallb (fun i => forallb (fun j =>
       nth (Z.to_nat (Z.lxor (Z.of_nat i) (Z.of_nat j))) crctab_hqx 0
       =? Z.lxor (nth i crctab_hqx 0) (nth j crctab_hqx 0))
         (seq 0 256)) (seq 0 256) = true) by (vm_compute; reflexivity).
  rewrite forallb_forall in Hall.
  specialize (Hall (Z.to_nat i)). rewrite forallb_forall in Hall.
  specialize (Hall ltac:(apply in_seq; lia) (Z.to_nat j)
                ltac:(apply in_seq; lia)).
  rewrite !Z2Nat.id in Hall by lia. lia.
Qed.

Lemma crc_hqx_step_lxor (c1 c2 : Z) (b1 b2 b : byte) :
  0 <= c1 < 65536 -> 0 <= c2 < 65536 ->
  byte_val b = Z.lxor (byte_val b1) (byte_val b2) ->
  crc_hqx_step (Z.lxor c1 c2) b
  = Z.lxor (crc_hqx_step c1 b1) (crc_hqx_step c2 b2).
Proof.
  intros Hc1 Hc2 Hb. unfold crc_hqx_step. rewrite Hb.
  rewrite Z.shiftl_lxor, land_lxor_mask, Z.shiftr_lxor.
  rewrite (lxor_swap (Z.shiftr c1 8)).
  assert (Hs : forall c, 0 <= c < 65536 -> 0 <= Z.shiftr c 8 < 256).
  { intros c Hc. rewrite Z.shiftr_div_pow2 by lia. change (2 ^ 8) with 256.
    split; [apply Z.div_pos; lia | apply Z.div_lt_upper_bound; lia]. }
  rewrite crctab_hqx_lxor.
  - apply lxor_swap.
  - apply (lxor_below 8); [lia | apply Hs, Hc1 | apply byte_val_range].
  - apply (lxor_below 8); [lia | apply Hs, Hc2 | apply byte_val_range].
Qed.

Lemma crc_fold_lxor (a : list byte) :
  forall (b c : list byte) (c1 c2 : Z),
    0 <= c1 < 65536 -> 0 <= c2 < 65536 ->
    length a = length b ->
    map byte_val c = zip_with Z.lxor (map byte_val a) (map byte_val b) ->
    fold_left crc_hqx_step c (Z.lxor c1 c2)
    = Z.lxor (fold_left crc_hqx_step a c1) (fold_left crc_hqx_step b c2).
Proof.
  induction a as [| x a IH]; intros b c c1 c2 Hc1 Hc2 Hlen Hc.
  - destruct b; [| discriminate]. destruct c; [| discriminate]. reflexivity.
  - destruct b as [| y b]; [discriminate |].
    destruct c as [| z c]; [discriminate |].
    simpl in Hc. injection Hc as Hz Hc. simpl.
    rewrite (crc_hqx_step_lxor c1 c2 x y z Hc1 Hc2 Hz).
    apply IH; [apply crc_hqx_step_range | apply crc_hqx_step_range | |].
    + simpl in Hlen. injection Hlen as Hlen. exact Hlen.
    + exact Hc.
Qed.

(** X3.  The checksum is linear over XOR: when [c] is the byte-wise XOR of
    two messages [a] and [b] of one length, its checksum is the XOR of
    theirs.  So an error pattern [b] laid over a message goes unnoticed
    exactly when the checksum of the pattern itself is zero. *)
Theorem crc16_xmodem_lxor (a b c : list byte) :
  length a = length b ->
  map byte_val c = zip_with Z.lxor (map byte_val a) (map byte_val b) ->
  crc16_xmodem c = Z.lxor (crc16_xmodem a) (crc16_xmodem b)
  /\ (crc16_xmodem c = crc16_xmodem a <-> crc16_xmodem b = 0).
Proof.
  intros Hlen Hc.
  assert (Heq : crc16_xmodem c = Z.lxor (crc16_xmodem a) (crc16_xmodem b)).
  { unfold crc16_xmodem, crc_hqx.
    change (Z.land 0 65535) with 0.
    apply (crc_fold_lxor a b c 0 0); [lia | lia | exact Hlen | exact Hc]. }
  split; [exact Heq |]. rewrite Heq. split.
  - intros H. apply (f_equal (Z.lxor (crc16_xmodem a))) in H.
    rewrite <- Z.lxor_assoc, Z.lxor_nilpotent, Z.lxor_0_l in H. exact H.
  - intros ->. apply Z.lxor_0_r.
Qed.

Lemma crc16_xmodem_lxor_witness :
  length [x31; x32] = length [x01; x02]
  /\ crc16_xmodem [x30; x30]
     = Z.lxor (crc16_xmodem [x31; x32]) (crc16_xmodem [x01; x02]).
Proof.
  assert (Hlen : length [x31; x32] = length [x01; x02]) by reflexivity.
  split; [exact Hlen |].
  exact (proj1 (crc16_xmodem_lxor [x31; x32] [x01; x02] [x30; x30]
                  Hlen eq_refl)).
Defined.

Lemma lxor_rotate (a b c : Z) :
  Z.lxor (Z.lxor a b) c = Z.lxor (Z.lxor a c) b.
Proof.
  apply Z.bits_inj'. intros n Hn. rewrite !Z.lxor_spec.
  destruct (Z.testbit a n), (Z.testbit b n), (Z.testbit c n); reflexivity.
Qed.

Ltac xor_bits :=
  apply Z.bits_inj'; intros ?n ?Hn; rewrite !Z.lxor_spec;
  repeat match goal with
         | |- context [Z.testbit ?x ?n] => destruct (Z.testbit x n)
         end; reflexivity.

Lemma crc_shift_lxor (a b : Z) :
  crc_shift (Z.lxor a b) = Z.lxor (crc_shift a) (crc_shift b).
Proof.
  unfold crc_shift. rewrite Z.lxor_spec, Z.shiftl_lxor.
  destruct (Z.testbit a 15), (Z.testbit b 15); simpl;
    rewrite <- land_lxor_mask; f_equal; xor_bits.
Qed.

Lemma crc_shift_iter_lxor (n : nat) (a b : Z) :
  Nat.iter n crc_shift (Z.lxor a b)
  = Z.lxor (Nat.iter n crc_shift a) (Nat.iter n crc_shift b).
Proof.
  induction n as [| n IH]; simpl; [reflexivity |].
  rewrite IH. apply crc_shift_lxor.
Qed.

Lemma forallb_below (P : Z -> bool) (n : nat) :
  forallb (fun i => P (Z.of_nat i)) (seq 0 n) = true ->
  forall z, 0 <= z < Z.of_nat n -> P z = true.
Proof.
  intros H z Hz. rewrite forallb_forall in H.
  specialize (H (Z.to_nat z) ltac:(apply in_seq; lia)).
  rewrite Z2Nat.id in H by lia. exact H.
Qed.

(** The table holds what eight shifts make of its index. *)
Lemma crctab_hqx_generated (i : Z) :
  0 <= i < 256 -> nth (Z.to_nat i) crctab_hqx 0 = crc_table_entry i.
Proof.
  intros Hi. apply Z.eqb_eq.
  apply (forallb_below
           (fun i => nth (Z.to_nat i) crctab_hqx 0 =? crc_table_entry i) 256);
    [vm_compute; reflexivity | lia].
Qed.

Lemma crc_shift_iter_low (l : Z) :
  0 <= l < 256 -> Nat.iter 8 crc_shift l = Z.shiftl l 8.
Proof.
  intros Hl. apply Z.eqb_eq.
  apply (forallb_below (fun l => Nat.iter 8 crc_shift l =? Z.shiftl l 8) 256);
    [vm_compute; reflexivity | lia].
Qed.

Lemma split_high_low (c : Z) :
  c = Z.lxor (Z.shiftl (Z.shiftr c 8) 8) (Z.land c 255).
Proof.
  apply Z.bits_inj'. intros n Hn.
  rewrite Z.lxor_spec, Z.land_spec, Z.shiftl_spec by lia.
  change 255 with (Z.ones 8).
  destruct (Z.lt_ge_cases n 8) as [Hlt | Hge].
  - rewrite (Z.testbit_neg_r _ (n - 8)) by lia.
    rewrite Z.ones_spec_low by lia. rewrite andb_true_r. reflexivity.
  - rewrite (Z.shiftr_spec _ 8 (n - 8)) by lia.
    replace (n - 8 + 8) with n by lia.
    rewrite Z.ones_spec_high by lia. rewrite andb_false_r, xorb_false_r.
    reflexivity.
Qed.

Lemma crc_hqx_step_bitwise (c : Z) (b : byte) :
  0 <= c < 65536 ->
  crc_hqx_step c b
  = Nat.iter 8 crc_shift (Z.lxor c (Z.shiftl (byte_val b) 8)).
Proof.
  intros Hc. pose proof (byte_val_range b) as Hb.
  assert (Hhi : 0 <= Z.shiftr c 8 < 256).
  { rewrite Z.shiftr_div_pow2 by lia. change (2 ^ 8) with 256.
    split; [apply Z.div_pos; lia | apply Z.div_lt_upper_bound; lia]. }
  assert (Hlo : 0 <= Z.land c 255 < 256).
  { pose proof (land_mask_range c 255 ltac:(lia)). lia. }
  assert (Hidx : 0 <= Z.lxor (Z.shiftr c 8) (byte_val b) < 256)
    by (apply (lxor_below 8); [lia | exact Hhi | exact Hb]).
  rewrite (split_high_low c) at 2.
  rewrite lxor_rotate, <- Z.shiftl_lxor.
  rewrite crc_shift_iter_lxor, (crc_shift_iter_low _ Hlo).
  fold (crc_table_entry (Z.lxor (Z.shiftr c 8) (byte_val b))).
  rewrite <- (crctab_hqx_generated _ Hidx).
  unfold crc_hqx_step. rewrite Z.lxor_comm. f_equal.
  change 0xff00 with (Z.shiftl 255 8). rewrite <- Z.shiftl_land. reflexivity.
Qed.

(** X1.  The table-driven sum is the CRC of the docstring: the register
    starts at 0, each byte is added into its high half, and it is shifted
    bit by bit with the polynomial 0x1021. *)
Theorem crc16_xmodem_bitwise (data : list byte) :
  crc16_xmodem data = crc_bitwise data.
Proof.
  unfold crc16_xmodem, crc_hqx, crc_bitwise.
  change (Z.land 0 65535) with 0.
  assert (Hgen : forall c, 0 <= c < 65536 ->
            fold_left crc_hqx_step data c
            = fold_left (fun c b => Nat.iter 8 crc_shift
                                      (Z.lxor c (Z.shiftl (byte_val b) 8)))
                data c); [| apply Hgen; lia].
  induction data as [| b data IH]; intros c Hc; cbn [fold_left];
    [reflexivity |].
  rewrite <- (crc_hqx_step_bitwise c b Hc).
  apply IH, crc_hqx_step_range.
Qed.

(** The check value of CRC-16/XMODEM. *)
Example crc16_xmodem_check : crc16_xmodem sample_check = 0x31C3.
Proof. vm_compute. reflexivity. Qed.

(** ** [unescape_hdlc], sizes and plain data *)

Lemma unescape_spec_length_pair (l : list Z) :
  ((length (unescape_spec l) <= length l <= 2 * length (unescape_spec l))
   /\ forall b,
       length (unescape_spec (b :: l)) <= length (b :: l)
       <= 2 * length (unescape_spec (b :: l)))%nat.
Proof.
  induction l as [| a l [IH1 IH2]].
  - split; [simpl; lia |]. intros b. simpl. destruct (b =? 125); simpl; lia.
  - split; [apply IH2 |]. intros b.
    specialize (IH2 a).
    change (unescape_spec (b :: a :: l))
      with (if b =? 0x7D then Z.lxor a 0x20 :: unescape_spec l
            else b :: unescape_spec (a :: l)).
    destruct (b =? 0x7D); simpl length in *; lia.
Qed.

Lemma map_byte_val_inj (a b : list byte) :
  map byte_val a = map byte_val b -> a = b.
Proof.
  revert b. induction a as [| x a IH]; intros [| y b] H; try discriminate.
  - reflexivity.
  - simpl in H. injection H as Hxy Hab.
    apply (f_equal byte_of_int) in Hxy. rewrite !byte_of_int_val in Hxy.
    injection Hxy as ->. f_equal. apply IH, Hab.
Qed.

Lemma unescape_spec_plain (a : list byte) (l : list Z) :
  Forall (fun x => x <> x7d) a ->
  unescape_spec (map byte_val a ++ l) = map byte_val a ++ unescape_spec l.
Proof.
  induction 1 as [| x a Hx Ha IH]; [reflexivity |].
  assert (Hne : (byte_val x =? 0x7D) = false).
  { apply Z.eqb_neq. intros H. apply Hx.
    apply (f_equal byte_of_int) in H. rewrite byte_of_int_val in H.
    injection H as ->. reflexivity. }
  simpl. rewrite Hne. f_equal. exact IH.
Qed.

(** X5.  Unescaping never lengthens the data and at most halves it. *)
Theorem unescape_hdlc_length (data : list byte) :
  exists out, unescape_hdlc data = Done out
              /\ len out <= len data <= 2 * len out.
Proof.
  destruct (unescape_hdlc_refines data) as (out & Hout & Hspec).
  exists out. split; [exact Hout |].
  destruct (unescape_spec_length_pair (map byte_val data)) as [Hlen _].
  rewrite <- Hspec, !length_map in Hlen. unfold len. lia.
Qed.

(** X6.  Bytes in front of the first escape marker pass through unchanged:
    when [a] holds no 0x7D, unescaping [a ++ b] gives [a] followed by the
    unescaped [b]; data without any marker are returned as they are. *)
Theorem unescape_hdlc_plain_prefix (a b : list byte) :
  Forall (fun x => x <> x7d) a ->
  exists out, unescape_hdlc b = Done out
              /\ unescape_hdlc (a ++ b) = Done (a ++ out).
Proof.
  intros Ha.
  destruct (unescape_hdlc_refines b) as (out & Hout & Hspec).
  destruct (unescape_hdlc_refines (a ++ b)) as (out' & Hout' & Hspec').
  exists out. split; [exact Hout |]. rewrite Hout'. f_equal.
  apply map_byte_val_inj.
  rewrite Hspec', !map_app, (unescape_spec_plain a _ Ha), Hspec. reflexivity.
Qed.

Lemma unescape_hdlc_plain_prefix_witness :
  Forall (fun x => x <> x7d) [x7e; xa0]
  /\ exists out, unescape_hdlc [x7d; x5e; x01] = Done out
       /\ unescape_hdlc ([x7e; xa0] ++ [x7d; x5e; x01])
          = Done ([x7e; xa0] ++ out).
Proof.
  assert (H : Forall (fun x => x <> x7d) [x7e; xa0])
    by (repeat constructor; discriminate).
  split; [exact H |]. exact (unescape_hdlc_plain_prefix _ _ H).
Defined.

(** ** [_safe_parse_timestamp] and the calendar *)

Lemma days_in_month_range (y mo : Z) : 28 <= days_in_month y mo <= 31.
Proof.
  unfold days_in_month.
  destruct (mo =? 2); [destruct (is_leap y); lia |].
  destruct (_ || _); lia.
Qed.

Lemma timestamp_fields_length (value : list byte) :
  len value <> 12 -> timestamp_fields value = None.
Proof.
  intros H. unfold timestamp_fields.
  do 12 (destruct value as [| ? value]; [reflexivity |]).
  destruct value; [| reflexivity].
  exfalso. apply H. reflexivity.
Qed.

(** What [_safe_parse_timestamp] returns, in one equation: the result of
    every path, the one through the exception of [datetime] included. *)
Lemma _safe_parse_timestamp_eq (value : list byte) :
  _safe_parse_timestamp value
  = Done match timestamp_fields value with
         | Some (y, mo, d, h, mi) =>
             if calendar_minute y mo d h mi
             then Some (isoformat (mk_datetime y mo d h mi 0))
             else None
         | None => None
         end.
Proof.
  destruct (Z.eq_dec (len value) 12) as [Hlen | Hlen].
  2:{ rewrite _safe_parse_timestamp_length, timestamp_fields_length by exact Hlen.
      reflexivity. }
  destruct value as [| c0 [| c1 [| c2 [| c3 [| c4 [| c5 [| c6 [| c7 [| c8 [| c9 [| c10 [| c11 [| c12 value]]]]]]]]]]]]];
    try (unfold len in Hlen; simpl in Hlen; lia). clear Hlen.
  unfold _safe_parse_timestamp, timestamp_fields.
  set (value := [c0; c1; c2; c3; c4; c5; c6; c7; c8; c9; c10; c11]).
  change (len value =? 12) with true. cbv [negb].
  change (bytes_getitem value 0) with (Done (byte_val c0)).
  change (bytes_getitem value 3) with (Done (byte_val c3)).
  change (bytes_getitem value 4) with (Done (byte_val c4)).
  change (bytes_getitem value 6) with (Done (byte_val c6)).
  change (bytes_getitem value 7) with (Done (byte_val c7)).
  change (slice value 1 3) with [c1; c2].
  cbv [bind].
  replace (int_from_bytes_big [c1; c2]) with (256 * byte_val c1 + byte_val c2)
    by (unfold int_from_bytes_big; simpl; lia).
  destruct (byte_val c0 =? 7); [| reflexivity]. cbv [negb].
  set (y := 256 * byte_val c1 + byte_val c2).
  set (mo := byte_val c3). set (d := byte_val c4).
  set (h := byte_val c6). set (mi := byte_val c7).
  pose proof (byte_val_range c6) as Hh. fold h in Hh.
  pose proof (byte_val_range c7) as Hmi. fold mi in Hmi.
  pose proof (days_in_month_range y mo) as Hdim.
  unfold calendar_minute, datetime_new.
  destruct (Z.leb_spec 1970 y), (Z.leb_spec y 2100); simpl; try reflexivity.
  destruct (Z.leb_spec 1 mo), (Z.leb_spec mo 12); simpl; try reflexivity.
  destruct (Z.leb_spec 1 d); simpl; try reflexivity.
  destruct (Z.leb_spec d 31); simpl.
  2:{ destruct (Z.leb_spec d (days_in_month y mo)); [lia | reflexivity]. }
  replace (0 <=? h) with true by lia. replace (0 <=? mi) with true by lia.
  replace (1 <=? y) with true by lia. replace (y <=? 9999) with true by lia.
  simpl.
  destruct (h <=? 23); simpl.
  2:{ destruct (d <=? days_in_month y mo); reflexivity. }
  destruct (mi <=? 59); simpl.
  2:{ destruct (d <=? days_in_month y mo); reflexivity. }
  destruct (d <=? days_in_month y mo); reflexivity.
Qed.

(** X7.  [_safe_parse_timestamp] always returns, and it returns a timestamp
    exactly for the values of twelve bytes that start with 07 and whose
    year, month, day, hour and minute name a minute of the calendar between
    1970 and 2100.  A day that the month does not have (30 February) is
    turned down as well, through the exception of [datetime]; the bytes at
    offsets 5 and 8 to 11 play no part. *)
Theorem _safe_parse_timestamp_calendar (value : list byte) :
  (exists r, _safe_parse_timestamp value = Done r)
  /\ ((exists ts, _safe_parse_timestamp value = Done (Some ts))
      <-> exists y mo d h mi,
            timestamp_fields value = Some (y, mo, d, h, mi)
            /\ calendar_minute y mo d h mi = true).
Proof.
  rewrite _safe_parse_timestamp_eq. split; [eauto |]. split.
  - intros [ts Hts].
    destruct (timestamp_fields value) as [[[[[y mo] d] h] mi] |];
      [| discriminate].
    exists y, mo, d, h, mi. split; [reflexivity |].
    destruct (calendar_minute y mo d h mi); [reflexivity | discriminate].
  - intros (y & mo & d & h & mi & -> & ->). eauto.
Qed.

Example _safe_parse_timestamp_february_30 :
  timestamp_fields [x07; x07; xe9; x02; x1e; x00; x0a; x1e; x00; x00; x00; x00]
  = Some (2025, 2, 30, 10, 30)
  /\ _safe_parse_timestamp
       [x07; x07; xe9; x02; x1e; x00; x0a; x1e; x00; x00; x00; x00]
     = Done None.
Proof. split; vm_compute; reflexivity. Qed.


Lemma isoformat_chars (y mo d h mi : Z) :
  isoformat (mk_datetime y mo d h mi 0)
  = [48 + y / 10 / 10 / 10 mod 10; 48 + y / 10 / 10 mod 10;
     48 + y / 10 mod 10; 48 + y mod 10; 45;
     48 + mo / 10 mod 10; 48 + mo mod 10; 45;
     48 + d / 10 mod 10; 48 + d mod 10; 84;
     48 + h / 10 mod 10; 48 + h mod 10; 58;
     48 + mi / 10 mod 10; 48 + mi mod 10; 58; 48; 48].
Proof. reflexivity. Qed.




(** ** The output of [parse_tlv] *)

Lemma parse_tlv_elements (payload : list byte) :
  parse_tlv payload
  = map_fields (foldl store_element ∅ (elements payload))
      (u32_values_of payload).
Proof.
  destruct (tlv_walk_elements payload) as [j Hwalk].
  rewrite (parse_tlv_walk payload _ Hwalk). reflexivity.
Qed.

Lemma parse_tlv_no_other_key (payload : list byte) (m : gmap string pyval)
    (key : string) :
  parse_tlv payload = Done m -> key ∉ output_keys -> m !! key = None.
Proof.
  intros Hm Hkey. rewrite parse_tlv_elements in Hm.
  unfold output_keys in Hkey. rewrite !not_elem_of_cons in Hkey.
  destruct Hkey as (? & ? & ? & ? & ? & ? & ? & ? & ? & ? & ? & ? & ? & _).
  rewrite (map_fields_other _ _ _ key Hm) by assumption.
  rewrite foldl_store_frame by assumption. apply lookup_empty.
Qed.

Lemma attempt_Some (data anchor : list byte) (m : gmap string pyval) :
  attempt data anchor = Done (Some m) ->
  exists tlv, parse_tlv tlv = Done m /\ m <> ∅.
Proof.
  unfold attempt. cbv zeta. destruct (negb _); [| discriminate].
  destruct (parse_tlv _) as [m' | |] eqn:Hp; simpl; try discriminate.
  destruct (truthy_dict m') eqn:Ht; [| discriminate].
  intros [= <-]. eexists. split; [exact Hp |]. apply truthy_dict_spec, Ht.
Qed.

Lemma decode_result (payload : list byte) (m : gmap string pyval) :
  decode_tibber_pulse_message payload = Done m ->
  m = ∅ \/ exists tlv, parse_tlv tlv = Done m /\ m <> ∅.
Proof.
  destruct payload as [| b payload]; [intros [= <-]; left; reflexivity |].
  destruct (decode_unfold (b :: payload)) as (data & _ & ->); [discriminate |].
  destruct (attempt data primary_anchor) as [[m1 |] | |] eqn:H1; simpl;
    try discriminate.
  - intros [= <-]. right. apply (attempt_Some _ _ _ H1).
  - destruct (attempt data fallback_anchor) as [[m2 |] | |] eqn:H2; simpl;
      try discriminate.
    + intros [= <-]. right. apply (attempt_Some _ _ _ H2).
    + intros [= <-]. left. reflexivity.
Qed.

Lemma decode_returns (payload : list byte) :
  exists m, decode_tibber_pulse_message payload = Done m.
Proof.
  destruct payload as [| b payload]; [exists ∅; reflexivity |].
  destruct (decode_unfold (b :: payload)) as (data & _ & ->); [discriminate |].
  destruct (attempt_spec data primary_anchor) as [(m & _ & ->) | [_ ->]];
    simpl; [eauto |].
  destruct (attempt_spec data fallback_anchor) as [(m & _ & ->) | [_ ->]];
    simpl; eauto.
Qed.

(** X15.  The mapping that [decode_tibber_pulse_message] returns has no key
    outside the thirteen names that [parse_tlv] writes. *)
Theorem decode_output_keys (payload : list byte) (m : gmap string pyval)
    (key : string) :
  decode_tibber_pulse_message payload = Done m ->
  is_Some (m !! key) -> key ∈ output_keys.
Proof.
  intros Hm Hkey.
  destruct (decide (key ∈ output_keys)) as [Hin | Hout]; [exact Hin |].
  exfalso. destruct (decode_result payload m Hm) as [-> | (tlv & Hp & _)].
  - rewrite lookup_empty in Hkey. destruct Hkey as [? [=]].
  - rewrite (parse_tlv_no_other_key tlv m key Hp Hout) in Hkey.
    destruct Hkey as [? [=]].
Qed.

Lemma decode_output_keys_witness :
  exists m, decode_tibber_pulse_message sample_shortest = Done m
            /\ is_Some (m !! "strings")
            /\ "strings"%string ∈ output_keys.
Proof.
  destruct (decode_returns sample_shortest) as [m Hm].
  exists m. split; [exact Hm |].
  assert (Hkey : is_Some (m !! "strings")).
  { rewrite (field_Done _ _ _ Hm). eexists. vm_compute. reflexivity. }
  split; [exact Hkey |].
  exact (decode_output_keys sample_shortest m "strings" Hm Hkey).
Defined.

Lemma find_import_total_is_Some (u32 : list Z) (r : gmap string pyval) :
  is_Some (find_import_total u32 r !! "active_import_total")
  <-> Exists (fun v => 100000 < v) u32
      \/ is_Some (r !! "active_import_total").
Proof.
  induction u32 as [| v rest IH]; simpl.
  - rewrite Exists_nil. tauto.
  - rewrite Exists_cons. destruct (Z.gtb_spec v 100000).
    + rewrite lookup_insert_eq. split; [intros _; left; left; lia | eauto].
    + rewrite IH. split; [tauto |]. intros [[? | ?] | ?]; [lia | tauto | tauto].
Qed.

(** X9.  Which measurements the output holds depends only on how many
    double-long-unsigned values were read: [active_power_import] is there
    exactly when there is at least one, the three currents and the three
    voltages are there together exactly when there are at least nine, and
    [active_import_total] exactly when some value exceeds 100000. *)
Theorem parse_tlv_presence (payload : list byte) :
  exists m, parse_tlv payload = Done m
    /\ (is_Some (m !! "active_power_import") <-> u32_values_of payload <> [])
    /\ (forall key, key ∈ phase_keys ->
          (is_Some (m !! key) <-> 9 <= len (u32_values_of payload)))
    /\ (is_Some (m !! "active_import_total")
        <-> Exists (fun v => 100000 < v) (u32_values_of payload)).
Proof.
  rewrite parse_tlv_elements.
  set (result := foldl store_element ∅ (elements payload)).
  set (u32 := u32_values_of payload).
  assert (Hframe : forall key,
            key <> "timestamp"%string -> key <> "strings"%string ->
            key <> "meter_id"%string -> key <> "meter_model"%string ->
            key <> "u16_values"%string -> result !! key = None).
  { intros key ? ? ? ? ?. unfold result.
    rewrite foldl_store_frame by assumption. apply lookup_empty. }
  destruct (map_fields_eq result u32) as (r1 & r2 & Hm & Hr1 & Hr2).
  exists (find_import_total u32 r2). split; [exact Hm |].
  assert (Hnone : forall key,
            key <> "timestamp"%string -> key <> "strings"%string ->
            key <> "meter_id"%string -> key <> "meter_model"%string ->
            key <> "u16_values"%string ->
            key <> "active_power_import"%string -> r1 !! key = None).
  { intros key ? ? ? ? ? ?.
    destruct Hr1 as [[_ ->] | (v & rest & _ & ->)].
    - apply Hframe; assumption.
    - rewrite lookup_insert_ne by congruence. apply Hframe; assumption. }
  split; [| split].
  - rewrite find_import_total_other by done.
    assert (Hr2' : r2 !! "active_power_import" = r1 !! "active_power_import").
    { destruct Hr2 as [[_ ->] | (_ & x & y & z & c1 & c2 & c3 & v1 & v2 & v3 & _ & ->)];
        [reflexivity |].
      rewrite !lookup_insert_ne by done. reflexivity. }
    rewrite Hr2'. destruct Hr1 as [[Hu ->] | (v & rest & Hu & ->)].
    + rewrite Hframe by done.
      rewrite Hu. split; [intros [? [=]] | congruence].
    + rewrite lookup_insert_eq, Hu. split; [discriminate | eauto].
  - intros key Hkey.
    unfold phase_keys in Hkey. rewrite !elem_of_cons, elem_of_nil in Hkey.
    destruct Hr2 as [[Hlt ->] | (Hge & x & y & z & c1 & c2 & c3 & v1 & v2 & v3 & _ & ->)].
    + destruct Hkey as [-> | [-> | [-> | [-> | [-> | [-> | []]]]]]];
        rewrite find_import_total_other by done;
        rewrite Hnone by done; (split; [intros [? [=]] | lia]).
    + destruct Hkey as [-> | [-> | [-> | [-> | [-> | [-> | []]]]]]];
        rewrite find_import_total_other by done;
        rewrite ?lookup_insert_ne by done; rewrite lookup_insert_eq;
        (split; [intros _; exact Hge | eauto]).
  - rewrite find_import_total_is_Some.
    assert (Hr2' : r2 !! "active_import_total" = None).
    { destruct Hr2 as [[_ ->] | (_ & x & y & z & c1 & c2 & c3 & v1 & v2 & v3 & _ & ->)].
      - apply Hnone; done.
      - rewrite !lookup_insert_ne by done. apply Hnone; done. }
    rewrite Hr2'. split; [intros [? | [? [=]]]; assumption | eauto].
Qed.

(** ** Sizes of the values in the output *)

Lemma read_element_in_range (payload : list byte) (i j : Z) (e : element) :
  0 <= i -> read_element payload i = Some (e, j) ->
  i < j <= len payload /\ element_in_range e.
Proof.
  intros Hi. unfold read_element.
  destruct (payload !! Z.to_nat i) as [b |] eqn:Hb; [| discriminate].
  apply lookup_lt_Some in Hb. cbv zeta.
  destruct (byte_val b =? 2).
  { destruct (payload !! Z.to_nat (i + 1)) as [c |] eqn:Hc; [| discriminate].
    apply lookup_lt_Some in Hc.
    intros [= <- <-]. split; [unfold len; lia | apply byte_val_range]. }
  destruct (byte_val b =? 9).
  { destruct (payload !! Z.to_nat (i + 1)) as [c |]; [| discriminate].
    pose proof (byte_val_range c).
    destruct (Z.gtb_spec (i + 1 + 1 + byte_val c) (len payload));
      [discriminate |].
    intros [= <- <-]. split; [lia |]. simpl. rewrite slice_len by lia. lia. }
  destruct (byte_val b =? 6).
  { destruct (Z.gtb_spec (i + 1 + 4) (len payload)); [discriminate |].
    intros [= <- <-]. split; [lia |]. simpl.
    pose proof (int_from_bytes_big_range
                  (slice payload (i + 1) (i + 1 + 4))) as Hr.
    rewrite slice_len in Hr by lia.
    replace (i + 1 + 4 - (i + 1)) with 4 in Hr by lia.
    change (256 ^ 4) with (2 ^ 32) in Hr. exact Hr. }
  destruct (byte_val b =? 16).
  { destruct (Z.gtb_spec (i + 1 + 2) (len payload)); [discriminate |].
    intros [= <- <-]. split; [lia |]. simpl.
    pose proof (int_from_bytes_big_range
                  (slice payload (i + 1) (i + 1 + 2))) as Hr.
    rewrite slice_len in Hr by lia.
    replace (i + 1 + 2 - (i + 1)) with 2 in Hr by lia.
    change (256 ^ 2) with (2 ^ 16) in Hr. exact Hr. }
  destruct ((byte_val b =? 15) || (byte_val b =? 17)); [| discriminate].
  destruct (payload !! Z.to_nat (i + 1)) eqn:Hc; [| discriminate].
  apply lookup_lt_Some in Hc.
  intros [= <- <-]. split; [unfold len; lia | exact I].
Qed.

Lemma elements_from_in_range (payload : list byte) (fuel : nat) :
  forall i, 0 <= i ->
    Forall element_in_range (elements_from fuel payload i).
Proof.
  induction fuel as [| fuel IH]; intros i Hi; simpl; [constructor |].
  destruct (i <? len payload); [| constructor].
  destruct (read_element payload i) as [[e j] |] eqn:Hread; [| constructor].
  destruct (read_element_in_range payload i j e Hi Hread) as [Hj He].
  constructor; [exact He | apply IH; lia].
Qed.

Lemma elements_in_range (payload : list byte) :
  Forall element_in_range (elements payload).
Proof. apply elements_from_in_range. lia. Qed.

Lemma Forall_omap_elements {A : Type} (proj : element -> option A)
    (P : A -> Prop) (els : list element) :
  (forall e v, proj e = Some v -> element_in_range e -> P v) ->
  Forall element_in_range els -> Forall P (omap proj els).
Proof.
  intros Hp Hall. induction Hall as [| e els He Hall IH]; [constructor |].
  cbn. destruct (proj e) as [v |] eqn:Hv; [| exact IH].
  constructor; [exact (Hp e v Hv He) | exact IH].
Qed.

(** X10.  The numbers in the output are those of the wire: the value under
    [active_power_import] is an integer of 32 bits, and [u16_values], when
    present, is a non-empty list of integers of 16 bits. *)
Theorem parse_tlv_number_ranges (payload : list byte)
    (m : gmap string pyval) :
  parse_tlv payload = Done m ->
  (forall v, m !! "active_power_import" = Some v ->
     exists z, v = VInt z /\ 0 <= z < 2 ^ 32)
  /\ (forall v, m !! "u16_values" = Some v ->
        exists l, v = VList (VInt <$> l) /\ l <> []
                  /\ Forall (fun z => 0 <= z < 2 ^ 16) l).
Proof.
  intros Hm. rewrite parse_tlv_elements in Hm.
  pose proof (elements_in_range payload) as Hall.
  split.
  - intros v Hv.
    assert (Hu32 : Forall (fun z => 0 <= z < 2 ^ 32) (u32_values_of payload)).
    { apply (Forall_omap_elements u32_of _ _); [| exact Hall].
      intros [] z [= <-] Hr. exact Hr. }
    destruct (u32_values_of payload) as [| z rest] eqn:Hu.
    + exfalso. destruct (map_fields_eq (foldl store_element ∅ (elements payload)) [])
        as (r1 & r2 & Heq & Hr1 & Hr2).
      rewrite Heq in Hm. injection Hm as <-. simpl in Hv.
      destruct Hr2 as [[_ ->] | (Hge & _)]; [| unfold len in Hge; simpl in Hge; lia].
      destruct Hr1 as [[_ ->] | (? & ? & [=] & _)].
      rewrite foldl_store_frame, lookup_empty in Hv by done. discriminate.
    + rewrite (map_fields_power _ _ _ Hm z rest eq_refl) in Hv.
      injection Hv as <-. exists z. split; [reflexivity |].
      apply Forall_cons in Hu32 as [Hz _]. exact Hz.
  - intros v Hv.
    rewrite (map_fields_other _ _ _ _ Hm) in Hv by done.
    rewrite foldl_store_u16 in Hv.
    exists (omap u16_of (elements payload)).
    destruct (omap u16_of (elements payload)) as [| z l] eqn:Hl;
      [discriminate |].
    simpl in Hv. injection Hv as <-. split; [reflexivity |].
    split; [discriminate |]. rewrite <- Hl.
    apply (Forall_omap_elements u16_of _ _); [| exact Hall].
    intros [] w [= <-] Hr. exact Hr.
Qed.

Lemma parse_tlv_number_ranges_witness :
  exists m, parse_tlv sample_truncated = Done m
    /\ (forall v, m !! "active_power_import" = Some v ->
          exists z, v = VInt z /\ 0 <= z < 2 ^ 32)
    /\ m !! "active_power_import" = Some (VInt 500).
Proof.
  destruct (parse_tlv_total sample_truncated) as [m Hm].
  exists m. split; [exact Hm |].
  split; [exact (proj1 (parse_tlv_number_ranges sample_truncated m Hm)) |].
  rewrite (field_Done _ _ _ Hm). vm_compute. reflexivity.
Defined.

(** Decoding gives at most one character for each byte. *)
Lemma bytes_decode_ignore_length_le (n : nat) :
  forall s : list byte, (length s <= n)%nat ->
    (length (bytes_decode_ignore s) <= length s)%nat.
Proof.
  induction n as [| n IH]; intros s Hn.
  - destruct s; [simpl; lia | simpl in Hn; lia].
  - destruct s as [| b1 t1]; [simpl; lia |].
    simpl in Hn.
    assert (H1 := IH t1 ltac:(lia)).
    simpl bytes_decode_ignore.
    destruct (byte_val b1 <? 128); [simpl; lia |].
    destruct (byte_val b1 <? 194); [simpl; lia |].
    destruct (byte_val b1 <? 224).
    { destruct t1 as [| b2 t2]; [simpl; lia |]. simpl in Hn.
      assert (H2 := IH t2 ltac:(lia)).
      destruct (negb _); simpl length in *; lia. }
    destruct (byte_val b1 <? 240).
    { destruct t1 as [| b2 t2]; [simpl; lia |]. simpl in Hn.
      assert (H2 := IH t2 ltac:(lia)).
      destruct (_ || _); [simpl length in *; lia |].
      destruct t2 as [| b3 t3]; [simpl; lia |]. simpl in Hn.
      assert (H3 := IH t3 ltac:(simpl in *; lia)).
      destruct (negb _); simpl length in *; lia. }
    destruct (byte_val b1 <? 245); [| simpl; lia].
    destruct t1 as [| b2 t2]; [simpl; lia |]. simpl in Hn.
    assert (H2 := IH t2 ltac:(lia)).
    destruct (_ || _); [simpl length in *; lia |].
    destruct t2 as [| b3 t3]; [simpl; lia |]. simpl in Hn.
    assert (H3 := IH t3 ltac:(simpl in *; lia)).
    destruct (negb _); [simpl length in *; lia |].
    destruct t3 as [| b4 t4]; [simpl; lia |]. simpl in Hn.
    assert (H4 := IH t4 ltac:(simpl in *; lia)).
    destruct (negb _); simpl length in *; lia.
Qed.

Lemma bytes_decode_ignore_len (s : list byte) :
  len (bytes_decode_ignore s) <= len s.
Proof.
  pose proof (bytes_decode_ignore_length_le (length s) s ltac:(lia)).
  unfold len. lia.
Qed.

Lemma str_strip_nul_bounds (s : list Z) :
  len (str_strip [0] s) <= len s
  /\ head (str_strip [0] s) <> Some 0
  /\ last (str_strip [0] s) <> Some 0.
Proof.
  destruct (str_strip_spec [0] s) as (front & back & Hs & _ & _ & Hhead & Hlast).
  split; [| split].
  - rewrite Hs at 2. rewrite !len_app.
    pose proof (len_nonneg front). pose proof (len_nonneg back). lia.
  - destruct (str_strip [0] s) as [| c rest]; [discriminate |].
    simpl. intros [= ->]. specialize (Hhead 0 rest eq_refl). discriminate.
  - intros Hl. apply last_Some in Hl as [init Hl].
    specialize (Hlast 0 init Hl). discriminate.
Qed.

Lemma classify_bounded (value : list byte) :
  octet_kind_bounded (classify value).
Proof.
  unfold classify. rewrite _safe_parse_timestamp_eq.
  pose proof (bytes_decode_ignore_len value) as Hd.
  assert (Hrest : octet_kind_bounded
            (if len value =? 7 then KString (bytes_decode_ignore value)
             else if len value =? 16
                  then KMeterId (str_strip [0] (bytes_decode_ignore value))
             else if len value =? 8
                  then KMeterModel (bytes_decode_ignore value)
             else KIgnored)).
  { destruct (Z.eqb_spec (len value) 7); [simpl; lia |].
    destruct (Z.eqb_spec (len value) 16).
    - simpl.
      destruct (str_strip_nul_bounds (bytes_decode_ignore value))
        as (Hl & Hh & Ht).
      split; [lia | split; assumption].
    - destruct (Z.eqb_spec (len value) 8); [simpl; lia | exact I]. }
  destruct (timestamp_fields value) as [[[[[y mo] d] h] mi] |];
    [| exact Hrest].
  destruct (calendar_minute y mo d h mi); [| exact Hrest].
  rewrite isoformat_chars. reflexivity.
Qed.

Lemma last_omap_elements (proj : element -> option (list Z))
    (els : list element) (s : list Z) :
  last (omap proj els) = Some s -> exists e, proj e = Some s.
Proof.
  intros H. apply last_Some_elem_of in H.
  apply list_elem_of_omap in H as (e & _ & He). eauto.
Qed.

(** X11.  The texts in the output are bounded by the octet strings they come
    from: a [timestamp] has nineteen characters, a [meter_id] at most
    sixteen and no NUL at either end, a [meter_model] at most eight, and
    every entry of [strings] at most seven. *)
Theorem parse_tlv_text_bounds (payload : list byte) (m : gmap string pyval) :
  parse_tlv payload = Done m ->
  (forall v, m !! "timestamp" = Some v ->
     exists s, v = VStr s /\ len s = 19)
  /\ (forall v, m !! "meter_id" = Some v ->
        exists s, v = VStr s /\ len s <= 16
                  /\ head s <> Some 0 /\ last s <> Some 0)
  /\ (forall v, m !! "meter_model" = Some v ->
        exists s, v = VStr s /\ len s <= 8)
  /\ (forall v, m !! "strings" = Some v ->
        exists l, v = VList (VStr <$> l) /\ l <> []
                  /\ Forall (fun s => len s <= 7) l).
Proof.
  intros Hm. rewrite parse_tlv_elements in Hm.
  split; [| split; [| split]]; intros v Hv;
    rewrite (map_fields_other _ _ _ _ Hm) in Hv by done.
  - rewrite (foldl_store_single _ _ store_timestamp), lookup_empty in Hv.
    destruct (last _) as [s |] eqn:Hl; [| discriminate]. injection Hv as <-.
    apply last_omap_elements in Hl as [e He].
    exists s. split; [reflexivity |].
    destruct e as [| value | | |]; try discriminate. simpl in He.
    pose proof (classify_bounded value) as Hb.
    destruct (classify value); try discriminate. injection He as <-. exact Hb.
  - rewrite (foldl_store_single _ _ store_meter_id), lookup_empty in Hv.
    destruct (last _) as [s |] eqn:Hl; [| discriminate]. injection Hv as <-.
    apply last_omap_elements in Hl as [e He].
    exists s. split; [reflexivity |].
    destruct e as [| value | | |]; try discriminate. simpl in He.
    pose proof (classify_bounded value) as Hb.
    destruct (classify value); try discriminate. injection He as <-. exact Hb.
  - rewrite (foldl_store_single _ _ store_meter_model), lookup_empty in Hv.
    destruct (last _) as [s |] eqn:Hl; [| discriminate]. injection Hv as <-.
    apply last_omap_elements in Hl as [e He].
    exists s. split; [reflexivity |].
    destruct e as [| value | | |]; try discriminate. simpl in He.
    pose proof (classify_bounded value) as Hb.
    destruct (classify value); try discriminate. injection He as <-. exact Hb.
  - rewrite foldl_store_strings in Hv.
    exists (omap string_of (elements payload)).
    destruct (omap string_of (elements payload)) as [| s l] eqn:Hl;
      [discriminate |].
    simpl in Hv. injection Hv as <-. split; [reflexivity |].
    split; [discriminate |]. rewrite <- Hl.
    clear Hl Hm. induction (elements payload) as [| e els IH]; [constructor |].
    cbn. destruct (string_of e) as [t |] eqn:He; [| exact IH].
    constructor; [| exact IH].
    destruct e as [| value | | |]; try discriminate. simpl in He.
    pose proof (classify_bounded value) as Hb.
    destruct (classify value); try discriminate. injection He as <-. exact Hb.
Qed.

Lemma parse_tlv_text_bounds_witness :
  exists m, parse_tlv sample_meter_id = Done m
    /\ (forall v, m !! "meter_id" = Some v ->
          exists s, v = VStr s /\ len s <= 16
                    /\ head s <> Some 0 /\ last s <> Some 0)
    /\ m !! "meter_id" = Some (VStr (str "METER-1")).
Proof.
  destruct (parse_tlv_total sample_meter_id) as [m Hm].
  exists m. split; [exact Hm |].
  split; [exact (proj1 (proj2 (parse_tlv_text_bounds sample_meter_id m Hm))) |].
  rewrite (field_Done _ _ _ Hm). vm_compute. reflexivity.
Defined.

(** ** The walk over a longer and over a shorter buffer *)

Lemma slice_app_l {A : Type} (a rest : list A) (x y : Z) :
  0 <= x <= y -> y <= len a -> slice (a ++ rest) x y = slice a x y.
Proof.
  intros Hxy Hy.
  rewrite !slice_in_range by (rewrite ?len_app; pose proof (len_nonneg rest); lia).
  rewrite drop_app_le by (unfold len in *; lia).
  rewrite take_app_le by (rewrite length_drop; unfold len in *; lia).
  reflexivity.
Qed.

Lemma slice_app_r {A : Type} (pre rest : list A) (x y : Z) :
  0 <= x <= y -> y <= len rest ->
  slice (pre ++ rest) (len pre + x) (len pre + y) = slice rest x y.
Proof.
  intros Hxy Hy. pose proof (len_nonneg pre).
  rewrite !slice_in_range by (rewrite ?len_app; lia).
  rewrite drop_app_ge by (unfold len in *; lia).
  f_equal; [lia |]. f_equal. unfold len. lia.
Qed.

Lemma lookup_app_shift {A : Type} (pre rest : list A) (i : Z) :
  0 <= i -> (pre ++ rest) !! Z.to_nat (len pre + i) = rest !! Z.to_nat i.
Proof.
  intros Hi. rewrite lookup_app_r by (unfold len; lia).
  f_equal. unfold len. lia.
Qed.

(** An element that fits in a buffer is read the same when more bytes
    follow the buffer. *)
Lemma read_element_app_l (a rest : list byte) (i j : Z) (e : element) :
  0 <= i -> read_element a i = Some (e, j) ->
  read_element (a ++ rest) i = Some (e, j).
Proof.
  intros Hi. unfold read_element.
  destruct (a !! Z.to_nat i) as [b |] eqn:Hb; [| discriminate].
  rewrite (lookup_app_l_Some _ _ _ _ Hb). cbv zeta.
  pose proof (len_nonneg rest) as Hrest.
  destruct (byte_val b =? 2).
  { destruct (a !! Z.to_nat (i + 1)) as [c |] eqn:Hc; [| discriminate].
    rewrite (lookup_app_l_Some _ _ _ _ Hc). trivial. }
  destruct (byte_val b =? 9).
  { destruct (a !! Z.to_nat (i + 1)) as [c |] eqn:Hc; [| discriminate].
    rewrite (lookup_app_l_Some _ _ _ _ Hc).
    pose proof (byte_val_range c).
    destruct (Z.gtb_spec (i + 1 + 1 + byte_val c) (len a)); [discriminate |].
    destruct (Z.gtb_spec (i + 1 + 1 + byte_val c) (len (a ++ rest)));
      [rewrite len_app in *; lia |].
    rewrite slice_app_l by lia. trivial. }
  destruct (byte_val b =? 6).
  { destruct (Z.gtb_spec (i + 1 + 4) (len a)); [discriminate |].
    destruct (Z.gtb_spec (i + 1 + 4) (len (a ++ rest)));
      [rewrite len_app in *; lia |].
    rewrite slice_app_l by lia. trivial. }
  destruct (byte_val b =? 16).
  { destruct (Z.gtb_spec (i + 1 + 2) (len a)); [discriminate |].
    destruct (Z.gtb_spec (i + 1 + 2) (len (a ++ rest)));
      [rewrite len_app in *; lia |].
    rewrite slice_app_l by lia. trivial. }
  destruct ((byte_val b =? 15) || (byte_val b =? 17)); [| discriminate].
  destruct (a !! Z.to_nat (i + 1)) as [c |] eqn:Hc; [| discriminate].
  rewrite (lookup_app_l_Some _ _ _ _ Hc). trivial.
Qed.

(** Reading behind a prefix is reading the rest, with the cursor moved by
    the length of the prefix. *)
Lemma read_element_app_r (pre rest : list byte) (i : Z) :
  0 <= i ->
  read_element (pre ++ rest) (len pre + i)
  = match read_element rest i with
    | Some (e, j) => Some (e, len pre + j)
    | None => None
    end.
Proof.
  intros Hi. unfold read_element. rewrite lookup_app_shift by lia.
  destruct (rest !! Z.to_nat i) as [b |]; [| reflexivity]. cbv zeta.
  replace (len pre + i + 1) with (len pre + (i + 1)) by lia.
  rewrite lookup_app_shift by lia. rewrite len_app.
  destruct (byte_val b =? 2).
  { destruct (rest !! Z.to_nat (i + 1)); [| reflexivity].
    do 2 f_equal. lia. }
  destruct (byte_val b =? 9).
  { destruct (rest !! Z.to_nat (i + 1)) as [c |]; [| reflexivity].
    pose proof (byte_val_range c).
    replace (len pre + (i + 1) + 1 + byte_val c)
      with (len pre + (i + 1 + 1 + byte_val c)) by lia.
    replace (len pre + (i + 1) + 1) with (len pre + (i + 1 + 1)) by lia.
    destruct (Z.gtb_spec (i + 1 + 1 + byte_val c) (len rest)).
    - destruct (Z.gtb_spec (len pre + (i + 1 + 1 + byte_val c))
                  (len pre + len rest)); [reflexivity | lia].
    - destruct (Z.gtb_spec (len pre + (i + 1 + 1 + byte_val c))
                  (len pre + len rest)); [lia |].
      rewrite slice_app_r by lia. reflexivity. }
  destruct (byte_val b =? 6).
  { replace (len pre + (i + 1) + 4) with (len pre + (i + 1 + 4)) by lia.
    destruct (Z.gtb_spec (i + 1 + 4) (len rest)).
    - destruct (Z.gtb_spec (len pre + (i + 1 + 4)) (len pre + len rest));
        [reflexivity | lia].
    - destruct (Z.gtb_spec (len pre + (i + 1 + 4)) (len pre + len rest));
        [lia |].
      rewrite slice_app_r by lia. reflexivity. }
  destruct (byte_val b =? 16).
  { replace (len pre + (i + 1) + 2) with (len pre + (i + 1 + 2)) by lia.
    destruct (Z.gtb_spec (i + 1 + 2) (len rest)).
    - destruct (Z.gtb_spec (len pre + (i + 1 + 2)) (len pre + len rest));
        [reflexivity | lia].
    - destruct (Z.gtb_spec (len pre + (i + 1 + 2)) (len pre + len rest));
        [lia |].
      rewrite slice_app_r by lia. reflexivity. }
  destruct ((byte_val b =? 15) || (byte_val b =? 17)); [| reflexivity].
  destruct (rest !! Z.to_nat (i + 1)); [| reflexivity].
  do 2 f_equal. lia.
Qed.

Lemma elements_from_app_r (pre rest : list byte) (fuel : nat) :
  forall i, 0 <= i ->
    elements_from fuel (pre ++ rest) (len pre + i)
    = elements_from fuel rest i.
Proof.
  induction fuel as [| fuel IH]; intros i Hi; simpl; [reflexivity |].
  rewrite len_app.
  replace (len pre + i <? len pre + len rest) with (i <? len rest) by lia.
  destruct (i <? len rest); [| reflexivity].
  rewrite read_element_app_r by lia.
  destruct (read_element rest i) as [[e j] |] eqn:Hread; [| reflexivity].
  destruct (read_element_in_range rest i j e Hi Hread) as [Hj _].
  f_equal. apply IH. lia.
Qed.

(** Fuel beyond the bytes that are left changes nothing. *)
Lemma elements_from_fuel (payload : list byte) (fuel : nat) :
  forall fuel' i, 0 <= i ->
    (Z.to_nat (len payload - i) <= fuel)%nat ->
    (Z.to_nat (len payload - i) <= fuel')%nat ->
    elements_from fuel payload i = elements_from fuel' payload i.
Proof.
  induction fuel as [| fuel IH]; intros fuel' i Hi Hf Hf'.
  - simpl. destruct fuel'; [reflexivity |]. simpl.
    destruct (Z.ltb_spec i (len payload)); [lia | reflexivity].
  - simpl. destruct (Z.ltb_spec i (len payload)).
    + destruct fuel' as [| fuel']; [lia |]. simpl.
      destruct (Z.ltb_spec i (len payload)); [| lia].
      destruct (read_element payload i) as [[e j] |] eqn:Hread;
        [| reflexivity].
      destruct (read_element_in_range payload i j e Hi Hread) as [Hj _].
      f_equal. apply IH; lia.
    + destruct fuel'; [reflexivity |]. simpl.
      destruct (Z.ltb_spec i (len payload)); [lia | reflexivity].
Qed.

(** The bytes of one element in front of a payload put that element in
    front of its elements. *)
Lemma elements_app_element (a rest : list byte) (e : element) :
  read_element a 0 = Some (e, len a) ->
  elements (a ++ rest) = e :: elements rest.
Proof.
  intros Hread.
  destruct (read_element_in_range a 0 (len a) e ltac:(lia) Hread) as [Hlen _].
  unfold elements. rewrite length_app.
  destruct (length a) as [| n] eqn:Hn; [unfold len in Hlen; lia |].
  simpl elements_from. rewrite len_app.
  pose proof (len_nonneg rest).
  replace (0 <? len a + len rest) with true by lia.
  rewrite (read_element_app_l a rest 0 (len a) e ltac:(lia) Hread).
  f_equal.
  replace (len a) with (len a + 0) by lia.
  rewrite elements_from_app_r by lia.
  apply elements_from_fuel; [lia | unfold len; lia | unfold len; lia].
Qed.

Lemma elements_from_app_l (a rest : list byte) (fuel : nat) :
  forall i, 0 <= i ->
    elements_from fuel a i `prefix_of` elements_from fuel (a ++ rest) i.
Proof.
  induction fuel as [| fuel IH]; intros i Hi; simpl; [reflexivity |].
  destruct (Z.ltb_spec i (len a)); [| apply prefix_nil].
  rewrite len_app. pose proof (len_nonneg rest).
  replace (i <? len a + len rest) with true by lia.
  destruct (read_element a i) as [[e j] |] eqn:Hread; [| apply prefix_nil].
  rewrite (read_element_app_l a rest i j e Hi Hread).
  destruct (read_element_in_range a i j e Hi Hread) as [Hj _].
  apply prefix_cons, IH. lia.
Qed.

Lemma elements_from_fuel_mono (payload : list byte) (fuel : nat) :
  forall fuel' i, (fuel <= fuel')%nat ->
    elements_from fuel payload i `prefix_of` elements_from fuel' payload i.
Proof.
  induction fuel as [| fuel IH]; intros fuel' i Hf; simpl; [apply prefix_nil |].
  destruct fuel' as [| fuel']; [lia |]. simpl.
  destruct (i <? len payload); [| reflexivity].
  destruct (read_element payload i) as [[e j] |]; [| reflexivity].
  apply prefix_cons, IH. lia.
Qed.

Lemma elements_app_l (a rest : list byte) :
  elements a `prefix_of` elements (a ++ rest).
Proof.
  unfold elements.
  transitivity (elements_from (length a) (a ++ rest) 0).
  - apply elements_from_app_l. lia.
  - apply elements_from_fuel_mono. rewrite length_app. lia.
Qed.

Lemma elements_concat (chunks : list (list byte)) (es : list element)
    (rest : list byte) :
  Forall2 (fun chunk e => read_element chunk 0 = Some (e, len chunk))
    chunks es ->
  elements (concat chunks ++ rest) = es ++ elements rest.
Proof.
  induction 1 as [| chunk e chunks es Hread _ IH]; [reflexivity |].
  simpl. rewrite <- app_assoc, (elements_app_element chunk _ e Hread), IH.
  reflexivity.
Qed.

Lemma first_above_split (u32 : list Z) :
  Forall (fun x => x <= 100000) u32
  \/ exists pre v post, u32 = pre ++ v :: post
                        /\ Forall (fun x => x <= 100000) pre /\ 100000 < v.
Proof.
  induction u32 as [| x u32 IH]; [left; constructor |].
  destruct (Z_le_gt_dec x 100000) as [Hle | Hgt].
  - destruct IH as [Hall | (pre & v & post & -> & Hpre & Hv)].
    + left. constructor; assumption.
    + right. exists (x :: pre), v, post. split; [reflexivity |].
      split; [constructor; assumption | exact Hv].
  - right. exists [], x, u32. split; [reflexivity |].
    split; [constructor | lia].
Qed.

(** X12.  Concatenation: a payload made of the bytes of whole elements,
    followed by any bytes, is read as those elements followed by the
    elements of the rest; [parse_tlv] returns the mapping of the two runs
    of stores and of the two lists of double-long-unsigned values put end
    to end. *)
Theorem parse_tlv_concat (chunks : list (list byte)) (es : list element)
    (rest : list byte) :
  Forall2 (fun chunk e => read_element chunk 0 = Some (e, len chunk))
    chunks es ->
  elements (concat chunks ++ rest) = es ++ elements rest
  /\ parse_tlv (concat chunks ++ rest)
     = map_fields
         (foldl store_element (foldl store_element ∅ es) (elements rest))
         (omap u32_of es ++ u32_values_of rest).
Proof.
  intros Hchunks. pose proof (elements_concat _ _ rest Hchunks) as Hels.
  split; [exact Hels |].
  rewrite parse_tlv_elements. unfold u32_values_of.
  rewrite Hels, foldl_app, omap_app. reflexivity.
Qed.

Lemma parse_tlv_concat_witness :
  Forall2 (fun chunk e => read_element chunk 0 = Some (e, len chunk))
    [[x02; x0d]; [x06; x00; x00; x01; xf4]]
    [Structure 13; DoubleLongUnsigned 500]
  /\ elements (concat [[x02; x0d]; [x06; x00; x00; x01; xf4]]
               ++ [x10; x00; x05])
     = [Structure 13; DoubleLongUnsigned 500] ++ elements [x10; x00; x05].
Proof.
  assert (H : Forall2 (fun chunk e => read_element chunk 0 = Some (e, len chunk))
                [[x02; x0d]; [x06; x00; x00; x01; xf4]]
                [Structure 13; DoubleLongUnsigned 500])
    by (repeat constructor).
  split; [exact H |].
  exact (proj1 (parse_tlv_concat _ _ [x10; x00; x05] H)).
Defined.

(** X13.  Structure headers and small integers carry nothing: between whole
    elements, the two bytes of a structure header (0x02 and its count) or
    of a small integer (0x0F or 0x11 and its value) can be left out or put
    in without changing what [parse_tlv] returns; the count of a structure
    is never compared with what follows it. *)
Theorem parse_tlv_ignores_headers (chunks : list (list byte))
    (es : list element) (t c : byte) (rest : list byte) :
  Forall2 (fun chunk e => read_element chunk 0 = Some (e, len chunk))
    chunks es ->
  t = x02 \/ t = x0f \/ t = x11 ->
  parse_tlv (concat chunks ++ t :: c :: rest)
  = parse_tlv (concat chunks ++ rest).
Proof.
  intros Hchunks Ht.
  assert (Hhead : exists e, read_element [t; c] 0 = Some (e, len [t; c])
                            /\ u32_of e = None
                            /\ forall r, store_element r e = r).
  { destruct Ht as [-> | [-> | ->]].
    - exists (Structure (byte_val c)). repeat split.
    - exists SmallInt. repeat split.
    - exists SmallInt. repeat split. }
  destruct Hhead as (e & Hread & Hu32 & Hstore).
  rewrite !parse_tlv_elements. unfold u32_values_of.
  rewrite !(elements_concat _ _ _ Hchunks).
  change (t :: c :: rest) with ([t; c] ++ rest).
  rewrite (elements_app_element [t; c] rest e Hread).
  rewrite !foldl_app, !omap_app. simpl. rewrite Hu32, Hstore. reflexivity.
Qed.

Lemma parse_tlv_ignores_headers_witness :
  Forall2 (fun chunk e => read_element chunk 0 = Some (e, len chunk))
    [[x06; x00; x00; x01; xf4]] [DoubleLongUnsigned 500]
  /\ (x02 = x02 \/ x02 = x0f \/ x02 = x11)
  /\ parse_tlv (concat [[x06; x00; x00; x01; xf4]]
                ++ x02 :: xff :: [x10; x00; x05])
     = parse_tlv (concat [[x06; x00; x00; x01; xf4]] ++ [x10; x00; x05]).
Proof.
  assert (H : Forall2 (fun chunk e => read_element chunk 0 = Some (e, len chunk))
                [[x06; x00; x00; x01; xf4]] [DoubleLongUnsigned 500])
    by (repeat constructor).
  assert (Ht : x02 = x02 \/ x02 = x0f \/ x02 = x11) by (left; reflexivity).
  split; [exact H |]. split; [exact Ht |].
  exact (parse_tlv_ignores_headers _ _ x02 xff [x10; x00; x05] H Ht).
Defined.

(** X14.  Truncation: the elements read from the first [n] bytes of a
    payload are the first elements read from the whole payload, and a value
    that the truncated payload gives for [active_power_import] or for
    [active_import_total] is the value the whole payload gives. *)
Theorem parse_tlv_truncated (n : nat) (payload : list byte)
    (m m' : gmap string pyval) :
  parse_tlv (take n payload) = Done m ->
  parse_tlv payload = Done m' ->
  elements (take n payload) `prefix_of` elements payload
  /\ (forall v, m !! "active_power_import" = Some v ->
        m' !! "active_power_import" = Some v)
  /\ (forall v, m !! "active_import_total" = Some v ->
        m' !! "active_import_total" = Some v).
Proof.
  intros Hm Hm'.
  assert (Hpre : elements (take n payload) `prefix_of` elements payload).
  { rewrite <- (take_drop n payload) at 2. apply elements_app_l. }
  split; [exact Hpre |].
  destruct Hpre as [more Hmore].
  rewrite parse_tlv_elements in Hm, Hm'. unfold u32_values_of in Hm, Hm'.
  rewrite Hmore, omap_app in Hm'.
  set (els := elements (take n payload)) in *.
  assert (Hframe : forall key l,
            key = "active_power_import"%string
            \/ key = "active_import_total"%string ->
            foldl store_element ∅ l !! key = None).
  { intros key l [-> | ->]; rewrite foldl_store_frame by done;
      apply lookup_empty. }
  split.
  - intros v Hv. destruct (omap u32_of els) as [| z u] eqn:Hu.
    + exfalso.
      destruct (map_fields_eq (foldl store_element ∅ els) [])
        as (r1 & r2 & Heq & Hr1 & Hr2).
      rewrite Heq in Hm. injection Hm as <-. simpl in Hv.
      destruct Hr2 as [[_ ->] | (Hge & _)];
        [| unfold len in Hge; simpl in Hge; lia].
      destruct Hr1 as [[_ ->] | (? & ? & [=] & _)].
      rewrite Hframe in Hv by (left; reflexivity). discriminate.
    + rewrite (map_fields_power _ _ _ Hm z u eq_refl) in Hv.
      rewrite (map_fields_power _ _ _ Hm' z (u ++ omap u32_of more) eq_refl).
      exact Hv.
  - intros v Hv.
    destruct (map_fields_import_total _ _ _ Hm) as [Hfirst Hnone].
    destruct (map_fields_import_total _ _ _ Hm') as [Hfirst' _].
    destruct (first_above_split (omap u32_of els))
      as [Hall | (pre & z & post & Hu & Hle & Hz)].
    + rewrite (Hnone Hall), Hframe in Hv by (right; reflexivity).
      discriminate.
    + rewrite (Hfirst pre z post Hu Hle Hz) in Hv.
      rewrite (Hfirst' pre z (post ++ omap u32_of more)); [exact Hv | | exact Hle | exact Hz].
      rewrite Hu, <- app_assoc. reflexivity.
Qed.

Lemma parse_tlv_truncated_witness :
  exists m m',
    parse_tlv (take 10 sample_totals) = Done m
    /\ parse_tlv sample_totals = Done m'
    /\ m !! "active_import_total" = Some (VFloat 150)
    /\ m' !! "active_import_total" = Some (VFloat 150).
Proof.
  destruct (parse_tlv_total (take 10 sample_totals)) as [m Hm].
  destruct (parse_tlv_total sample_totals) as [m' Hm'].
  exists m, m'. split; [exact Hm |]. split; [exact Hm' |].
  assert (Hv : m !! "active_import_total" = Some (VFloat 150)).
  { rewrite (field_Done _ _ _ Hm). vm_compute. reflexivity. }
  split; [exact Hv |].
  exact (proj2 (proj2 (parse_tlv_truncated 10 sample_totals m m' Hm Hm'))
           _ Hv).
Defined.

(** ** Payloads too short for a field *)

Lemma parse_tlv_short_primary (tlv : list byte) :
  primary_anchor `prefix_of` tlv -> len tlv < 11 -> parse_tlv tlv = Done ∅.
Proof.
  intros [tail ->] Hlen. rewrite len_app in Hlen.
  change (len primary_anchor) with 4 in Hlen. unfold len in Hlen.
  rewrite parse_tlv_elements. unfold u32_values_of.
  do 7 (destruct tail as [| ? tail]; [vm_compute; reflexivity |]).
  simpl in Hlen. lia.
Qed.

Lemma parse_tlv_short_fallback (tlv : list byte) :
  fallback_anchor `prefix_of` tlv -> len tlv < 14 -> parse_tlv tlv = Done ∅.
Proof.
  intros [tail ->] Hlen. rewrite len_app in Hlen.
  change (len fallback_anchor) with 3 in Hlen. unfold len in Hlen.
  rewrite parse_tlv_elements. unfold u32_values_of.
  do 11 (destruct tail as [| ? tail]; [vm_compute; reflexivity |]).
  simpl in Hlen. lia.
Qed.

Lemma attempt_short (data anchor : list byte) :
  anchor = primary_anchor \/ anchor = fallback_anchor ->
  len data < 11 -> attempt data anchor = Done None.
Proof.
  intros Hanchor Hlen.
  destruct (attempt_spec data anchor) as [(m & Hy & _) | [_ Hnone]];
    [| exact Hnone].
  exfalso. destruct Hy as (k & (Hk & Hpre & _) & Hm & Hne).
  assert (Hdrop : len (drop k data) < 11).
  { unfold len in *. rewrite length_drop. lia. }
  destruct Hanchor as [-> | ->].
  - rewrite (parse_tlv_short_primary _ Hpre Hdrop) in Hm. congruence.
  - rewrite (parse_tlv_short_fallback _ Hpre) in Hm by lia. congruence.
Qed.

Lemma unescape_hdlc_len_le (data out : list byte) :
  unescape_hdlc data = Done out -> len out <= len data.
Proof.
  intros Hout.
  destruct (unescape_hdlc_refines data) as (out' & Hout' & Hspec).
  assert (out' = out) as -> by congruence.
  destruct (unescape_spec_length_pair (map byte_val data)) as [Hlen _].
  rewrite <- Hspec, !length_map in Hlen. unfold len. lia.
Qed.

(** Data that unescape to fewer than eleven bytes give no field. *)
Lemma decode_short_data (payload data : list byte) :
  unescape_hdlc payload = Done data -> len data < 11 ->
  decode_tibber_pulse_message payload = Done ∅.
Proof.
  intros Hdata Hlen. destruct payload as [| b payload]; [reflexivity |].
  destruct (decode_unfold (b :: payload)) as (data' & Hdata' & ->);
    [discriminate |].
  assert (data' = data) as -> by congruence.
  rewrite !attempt_short by (auto || lia). reflexivity.
Qed.

(** X16.  A payload of fewer than eleven bytes decodes to the empty mapping:
    the shortest block with a field is the primary anchor with its string
    of seven bytes.  Eleven bytes can give a field
    ([decode_shortest_frame]). *)
Theorem decode_short_payload (payload : list byte) :
  len payload < 11 -> decode_tibber_pulse_message payload = Done ∅.
Proof.
  intros Hlen.
  destruct (unescape_hdlc_refines payload) as (data & Hdata & _).
  pose proof (unescape_hdlc_len_le _ _ Hdata) as Hle.
  apply (decode_short_data payload data Hdata). lia.
Qed.

Lemma decode_short_payload_witness :
  len [x02; x0d; x09; x07; x4b; x46; x4d; x5f; x30; x30] < 11
  /\ decode_tibber_pulse_message
       [x02; x0d; x09; x07; x4b; x46; x4d; x5f; x30; x30] = Done ∅.
Proof.
  assert (H : len [x02; x0d; x09; x07; x4b; x46; x4d; x5f; x30; x30] < 11)
    by (vm_compute; reflexivity).
  split; [exact H |]. exact (decode_short_payload _ H).
Defined.

Example decode_shortest_frame :
  len sample_shortest = 11
  /\ field (decode_tibber_pulse_message sample_shortest) "strings"
     = Some (VList [VStr (str "KFM_001")]).
Proof. split; vm_compute; reflexivity. Qed.

(** ** The listener, the coordinator and the sensors *)

(** X17.  Every message reaches the coordinator: the branch of
    [_message_received] that drops a message on an exception of the decoder
    is never taken, and after a message [coordinator.data] holds what that
    message decodes to, whatever it held before. *)
Theorem message_received_replaces_data (data : coordinator_data)
    (payload : list byte) :
  exists decoded,
    decode_tibber_pulse_message payload = Done decoded
    /\ _message_received data payload = Done (Some decoded).
Proof.
  destruct (decode_returns payload) as [decoded Hdec].
  exists decoded. split; [exact Hdec |].
  unfold _message_received. rewrite Hdec. reflexivity.
Qed.

(** X18.  No value is kept from an earlier message: after a message, a
    sensor whose key the message does not give reads [None], whatever the
    coordinator held before; a message of fewer than eleven bytes leaves
    every sensor at [None]. *)
Theorem native_value_not_kept (round : pyval -> Z -> pyval)
    (data : coordinator_data) (payload : list byte)
    (description : Sensor.TibberPulseSensorDescription) :
  exists decoded data',
    decode_tibber_pulse_message payload = Done decoded
    /\ _message_received data payload = Done data'
    /\ (decoded !! Sensor.key description = None ->
        Sensor.native_value round data' description = None)
    /\ (len payload < 11 ->
        Sensor.native_value round data' description = None).
Proof.
  destruct (decode_returns payload) as [decoded Hdec].
  exists decoded, (Some decoded). split; [exact Hdec |].
  split; [unfold _message_received; rewrite Hdec; reflexivity |].
  assert (Hnone : decoded !! Sensor.key description = None ->
                  Sensor.native_value round (Some decoded) description = None).
  { intros Hkey. unfold Sensor.native_value. rewrite Hkey. reflexivity. }
  split; [exact Hnone |].
  intros Hlen. apply Hnone.
  destruct (unescape_hdlc_refines payload) as (unescaped & Hun & _).
  pose proof (unescape_hdlc_len_le _ _ Hun) as Hle.
  rewrite (decode_short_data payload unescaped Hun) in Hdec by lia.
  injection Hdec as <-. apply lookup_empty.
Qed.

Lemma native_value_not_kept_witness :
  exists decoded data',
    decode_tibber_pulse_message sample_anchor_cut = Done decoded
    /\ _message_received (Some (<["meter_id" := VStr (str "A")]> ∅))
         sample_anchor_cut = Done data'
    /\ Sensor.native_value (fun v _ => v) data'
         (Sensor.mk_description "meter_id" None) = None.
Proof.
  destruct (native_value_not_kept (fun v _ => v)
              (Some (<["meter_id" := VStr (str "A")]> ∅)) sample_anchor_cut
              (Sensor.mk_description "meter_id" None))
    as (decoded & data' & Hdec & Hmsg & _ & Hshort).
  exists decoded, data'. split; [exact Hdec |]. split; [exact Hmsg |].
  apply Hshort. vm_compute. reflexivity.
Defined.

(** ** The sensors and the decoder *)






